(** * Adding_AI_to_your_app.ipynb: the sentiment-classifier notebook

    A shallow embedding of the notebook's code cells.  The loader
    [load_data] is the notebook's own function and is embedded line by
    line over a model of the directory tree it reads.  The remaining
    cells call pandas and scikit-learn; those calls are embedded as the
    notebook writes them, over models of the library routines. *)

From stdpp Require Import gmap strings list fin_maps sorting.
From Stdlib Require Import ZArith QArith Qround Permutation.

Local Open Scope Z_scope.
Local Open Scope stdpp_scope.

(** ** The Python runtime the cells rely on *)

(** The built-in exceptions a cell of the notebook can end with. *)
Inductive exception : Type :=
  | FileNotFoundError
  | NotADirectoryError
  | IsADirectoryError
  | PermissionError
  | UnicodeDecodeError
  | KeyError
  | IndexError
  | ValueError
  | NotFittedError.

(** A statement either raises or completes with a value.  The notebook has
    no [try]/[except]: the first exception ends the run. *)
Inductive result (A : Type) : Type :=
  | Raise (e : exception)
  | Return (a : A).

Arguments Raise {A} e.
Arguments Return {A} a.

#[global] Instance exception_eq_dec : EqDecision exception.
Proof. solve_decision. Defined.

#[global] Instance result_ret : MRet result := fun A a => Return a.

#[global] Instance result_bind : MBind result := fun A B k r =>
  match r with
  | Raise e => Raise e
  | Return a => k a
  end.

(** [s[n:]] *)
Fixpoint slice_from (n : nat) (s : string) : string :=
  match n, s with
  | O, _ => s
  | S n', String _ s' => slice_from n' s'
  | S _, EmptyString => EmptyString
  end.

(** [s[:n]] *)
Fixpoint slice_to (n : nat) (s : string) : string :=
  match n, s with
  | O, _ => EmptyString
  | S n', String c s' => String c (slice_to n' s')
  | S _, EmptyString => EmptyString
  end.

(** [s.endswith(suffix)]: the tail of [s] of the suffix's length is the
    suffix. *)
Definition endswith (s suffix : string) : bool :=
  (String.length suffix <=? String.length s)%nat
  && String.eqb (slice_from (String.length s - String.length suffix) s) suffix.

(** [s.startswith(prefix)] *)
Definition startswith (s prefix : string) : bool :=
  (String.length prefix <=? String.length s)%nat
  && String.eqb (slice_to (String.length prefix) s) prefix.

(** [os.path.join(a, b)] on a POSIX system: an absolute second component
    replaces the first, otherwise the two are put together with exactly
    one separator between them. *)
Definition join (a b : string) : string :=
  if startswith b "/" then b
  else if String.eqb a "" || endswith a "/" then a +:+ b
  else a +:+ "/" +:+ b.

(** ** The directory tree *)

(** What a path names.  A regular file carries the text that reading it in
    text mode delivers, or [None] when its bytes do not decode; [readable]
    is the permission to open (a file) or to list (a directory). *)
Inductive inode : Type :=
  | RegularFile (readable : bool) (decoded : option string)
  | Directory (readable : bool) (entries : list string).

(** [os.listdir(path)]: the names in the directory, in the order the
    system enumerates them. *)
Definition listdir (fs : gmap string inode) (path : string) : result (list string) :=
  match fs !! path with
  | None => Raise FileNotFoundError
  | Some (RegularFile _ _) => Raise NotADirectoryError
  | Some (Directory readable entries) =>
      if readable then Return entries else Raise PermissionError
  end.

(** The object [open(file)] returns: a text stream positioned at its
    start. *)
Record TextIOWrapper : Type := mkTextIO {
  stream : option string;
  position : nat
}.

(** [open(file)], text mode, for reading. *)
Definition open (fs : gmap string inode) (file : string) : result TextIOWrapper :=
  match fs !! file with
  | None => Raise FileNotFoundError
  | Some (Directory _ _) => Raise IsADirectoryError
  | Some (RegularFile readable decoded) =>
      if readable then Return (mkTextIO decoded 0) else Raise PermissionError
  end.

(** [f.read()]: everything from the current position to the end. *)
Definition read (f : TextIOWrapper) : result string :=
  match stream f with
  | None => Raise UnicodeDecodeError
  | Some s => Return (slice_from (position f) s)
  end.

(** ** Cell 2: the paths *)

Definition data_dir : string := "data".
Definition pos_data_dir : string := join data_dir "pos".
Definition neg_data_dir : string := join data_dir "neg".

(** ** Cell 3: [load_data] *)

(** The dict [{"text": text, "label": label}]. *)
Record record : Type := mkRecord {
  text : string;
  label : Z
}.

#[global] Instance record_eq_dec : EqDecision record.
Proof. solve_decision. Defined.

(** The [for file in files] loop; [records] is the list built so far. *)
Fixpoint load_data_loop (fs : gmap string inode) (label : Z)
    (files : list string) (records : list record) : result (list record) :=
  match files with
  | [] => Return records
  | file :: rest =>
      f ← open fs file;
      text ← read f;
      load_data_loop fs label rest (records ++ [mkRecord text label])
  end.

Definition load_data (fs : gmap string inode) (filepath : string) (label : Z)
    : result (list record) :=
  names ← listdir fs filepath;
  let files :=
    (fun filename => join filepath filename)
      <$> filter (fun filename => endswith filename ".txt" = true) names in
  load_data_loop fs label files [].

(** What [with open(file) as f: text = f.read()] leaves in [text]. *)
Definition read_text (fs : gmap string inode) (file : string) : result string :=
  f ← open fs file; read f.

(** The names the list comprehension keeps. *)
Definition is_txt (filename : string) : Prop := endswith filename ".txt" = true.

#[global] Instance is_txt_dec filename : Decision (is_txt filename).
Proof. unfold is_txt. apply _. Defined.

(** ** pandas: frames and series *)

(** Modelled from the spec: pandas is library code.  A frame or a series
    (the spec's "ordered collection of Records") is its rows in order, each
    with its index label; [pd.DataFrame(data)] labels the rows
    [0 .. n-1]. *)
Definition pd_DataFrame (data : list record) : list (nat * record) :=
  zip (seq 0 (length data)) data.

(** Modelled from the spec: pandas is library code.
    [frame.reset_index(drop=True)]: same rows, labels [0 .. n-1] again. *)
Definition reset_index {A : Type} (frame : list (nat * A)) : list (nat * A) :=
  zip (seq 0 (length frame)) (frame.*2).

(** Modelled from the spec: pandas is library code.
    [frame.iloc[indices]]: the rows at the given positions, in the order
    of [indices], each with the label it had. *)
Definition iloc {A : Type} (frame : list A) (indices : list nat) : list A :=
  omap (fun i => frame !! i) indices.

(** Modelled from the spec: pandas is library code.  [df[name]] for the
    columns of a frame of records.  A frame built from an empty list has
    no columns at all, so the lookup fails. *)
Definition getitem {A : Type} (column : record -> A) (df : list (nat * record))
    : result (list (nat * A)) :=
  match df with
  | [] => Raise KeyError
  | _ :: _ => Return (prod_map id column <$> df)
  end.

(** [list(series)[i]] *)
Definition list_index {A : Type} (values : list A) (i : nat) : result A :=
  match values !! i with
  | Some v => Return v
  | None => Raise IndexError
  end.

(** ** scikit-learn: sparse matrices *)

(** Modelled from the spec: scipy's sparse matrix is library code.  The
    spec's "sparse numeric vector" per text: the number of columns and, for
    each row, the stored entries by column.  A column without a stored
    entry is zero. *)
Record csr_matrix (V : Type) : Type := mkCsr {
  n_features : nat;
  rows : list (gmap nat V)
}.

Arguments mkCsr {V} n_features rows.
Arguments n_features {V} c.
Arguments rows {V} c.

(** [feature_counter[feature_idx] += 1], starting from 1 when absent. *)
Definition bump (feature_idx : nat) (feature_counter : gmap nat nat) : gmap nat nat :=
  match feature_counter !! feature_idx with
  | None => <[feature_idx := 1%nat]> feature_counter
  | Some c => <[feature_idx := S c]> feature_counter
  end.

(** Modelled from the spec: scikit-learn's [CountVectorizer._count_vocab]
    is library code; this is its inner loop over the features of one
    document.  With a fixed vocabulary an unknown feature raises
    [KeyError] inside the loop body and is skipped; while fitting, the
    vocabulary is a [defaultdict] whose factory is its own length, so an
    unknown feature is given the next free index. *)
Fixpoint count_features (fixed_vocab : bool) (features : list string)
    (vocabulary : gmap string nat) (feature_counter : gmap nat nat)
    : gmap string nat * gmap nat nat :=
  match features with
  | [] => (vocabulary, feature_counter)
  | feature :: rest =>
      match vocabulary !! feature with
      | Some feature_idx =>
          count_features fixed_vocab rest vocabulary (bump feature_idx feature_counter)
      | None =>
          if fixed_vocab then count_features fixed_vocab rest vocabulary feature_counter
          else
            let feature_idx := size vocabulary in
            count_features fixed_vocab rest (<[feature := feature_idx]> vocabulary)
              (bump feature_idx feature_counter)
      end
  end.

(** [X.indices = map_index.take(X.indices)] on one row. *)
Definition reindex {V : Type} (map_index : gmap nat nat) (row : gmap nat V) : gmap nat V :=
  list_to_map (omap (fun jc => (fun j' => (j', jc.2)) <$> map_index !! jc.1) (map_to_list row)).

(** Modelled from the spec: scikit-learn's
    [CountVectorizer._sort_features] is library code.  Terms in sorted
    order get the indices [0, 1, ...], and the columns of [X] move with
    them. *)
Definition sort_features {V : Type} (X : list (gmap nat V)) (vocabulary : gmap string nat)
    : gmap string nat * list (gmap nat V) :=
  let sorted_features := merge_sort String.le (map_to_list vocabulary).*1 in
  let new_vals := seq 0 (length sorted_features) in
  let map_index : gmap nat nat :=
    list_to_map (zip (omap (fun term => vocabulary !! term) sorted_features) new_vals) in
  (list_to_map (zip sorted_features new_vals), reindex map_index <$> X).

(** Modelled from the spec: scikit-learn's
    [TfidfTransformer._document_frequency] is library code.  For each
    column, the number of rows that store an entry in it. *)
Definition document_frequency {V : Type} (X : list (gmap nat V)) : gmap nat nat :=
  foldr (fun row df => foldr bump df (map_to_list row).*1) ∅ X.

(** ** Cells 14 to 17: the evaluator (left as an exercise) *)

(** The number of positions at which the two sequences agree. *)
Definition count_matches (predicted actual : list Z) : nat :=
  length (filter (fun pa => pa.1 = pa.2) (zip predicted actual)).

(** Modelled from the spec: the evaluator is [sklearn.metrics.accuracy_score],
    which the notebook names in its exercise and never calls; its code is
    not in the repository.  The spec's contract (4.5): given parallel
    sequences of predicted and actual labels, accuracy is the count of
    matches over the total count.  The contract speaks of parallel
    sequences with a total count to divide by; outside it the library
    raises: on sequences of different lengths, and on two empty
    sequences, where the quotient is undefined. *)
Definition accuracy_score (predicted actual : list Z) : result Q :=
  if negb (length predicted =? length actual)%nat then Raise ValueError
  else if (length predicted =? 0)%nat then Raise ValueError
  else
    Return (inject_Z (Z.of_nat (count_matches predicted actual))
            / inject_Z (Z.of_nat (length predicted)))%Q.

(** The same count taken position by position. *)
Definition agree_at (predicted actual : list Z) (i : nat) : bool :=
  match predicted !! i, actual !! i with
  | Some p, Some a => bool_decide (p = a)
  | _, _ => false
  end.

Definition count_agreeing_positions (predicted actual : list Z) : nat :=
  length (filter (fun i => agree_at predicted actual i = true) (seq 0 (length predicted))).

(** ** A tiny corpus

    Two positive and two negative one-line reviews, laid out as the
    notebook expects them. *)
Definition tiny_pos : list record :=
  [mkRecord "great film" 1; mkRecord "loved every minute" 1].

Definition tiny_neg : list record :=
  [mkRecord "dull plot" 0; mkRecord "hated every minute" 0].

Definition tiny_corpus : gmap string inode :=
  list_to_map
    [("data/pos", Directory true ["p1.txt"; "p2.txt"]);
     ("data/neg", Directory true ["n1.txt"; "n2.txt"]);
     ("data/pos/p1.txt", RegularFile true (Some "great film"));
     ("data/pos/p2.txt", RegularFile true (Some "loved every minute"));
     ("data/neg/n1.txt", RegularFile true (Some "dull plot"));
     ("data/neg/n2.txt", RegularFile true (Some "hated every minute"))].

(** A directory with an entry that has no ".txt" suffix and cannot be
    opened. *)
Definition mixed_corpus : gmap string inode :=
  list_to_map
    [("data/pos", Directory true ["a.txt"; "notes.md"; "b.txt"]);
     ("data/pos/a.txt", RegularFile true (Some "fine acting"));
     ("data/pos/notes.md", RegularFile false (Some "private"));
     ("data/pos/b.txt", RegularFile true (Some "a joy"))].

(** A directory in which a ".txt" file does not decode. *)
Definition broken_corpus : gmap string inode :=
  list_to_map
    [("data/pos", Directory true ["a.txt"; "b.txt"]);
     ("data/pos/a.txt", RegularFile true (Some "fine acting"));
     ("data/pos/b.txt", RegularFile true None)].

(** A directory that lists no ".txt" name. *)
Definition no_txt_corpus : gmap string inode :=
  list_to_map
    [("data/pos", Directory true ["README"; "notes.md"]);
     ("data/pos/README", RegularFile true (Some "movie reviews"));
     ("data/pos/notes.md", RegularFile false None)].


(** A corpus of a single review. *)
Definition single_corpus : gmap string inode :=
  list_to_map
    [("data/pos", Directory true ["only.txt"]);
     ("data/neg", Directory true []);
     ("data/pos/only.txt", RegularFile true (Some "a gem"))].

(** ** Stand-ins for the examples

    The theorems below hold for every generator, analyser, arithmetic and
    classifier.  To run the cells on the corpora above, the examples use
    these: a generator that rotates [arange(n)] by its state, an analyser
    that cuts at white space, rational arithmetic without logarithm and
    square root, and a classifier that answers with the first training
    label. *)
Definition rot_seed (seed : Z) : nat := Z.to_nat seed.

Definition rot_permutation (g n : nat) : list nat := rotate g (seq 0 n).

Definition words_analyze (doc : string) : list string := String.words doc.

Definition q_idf (n_samples df : nat) : Q :=
  (inject_Z (Z.of_nat (1 + n_samples)) / inject_Z (Z.of_nat (1 + df)) + 1)%Q.

Definition q_tf_mul (count : nat) (weight : Q) : Q :=
  (inject_Z (Z.of_nat count) * weight)%Q.

Definition q_norm (values : list Q) : Q :=
  foldr (fun v acc => (v * v + acc)%Q) 0%Q values.

Definition first_label_fit (x : csr_matrix Q) (y : list Z) : result Z :=
  match y with
  | [] => Raise ValueError
  | l :: _ => Return l
  end.

Definition first_label_predict (m : Z) (x : csr_matrix Q) : list Z :=
  replicate (length (rows x)) m.

(** ** The library routines the cells call *)

Section Notebook.

(** numpy's generator: [RandomState_seed s] is [RandomState(s)], and
    [rng_permutation g n] is the order in which [g] leaves
    [arange(n)] after shuffling it. *)
Context {RandomState : Type}.
Variable RandomState_seed : Z -> RandomState.
Variable rng_permutation : RandomState -> nat -> list nat.

(** The analyser of [TfidfVectorizer(stop_words="english")]: lower-cases
    a document, cuts it into word tokens and drops the stop words. *)
Variable analyze : string -> list string.

(** Floating point, as far as the vectoriser uses it: the smoothed
    inverse document frequency of a column from the number of documents
    and the column's document frequency, a count times a weight, the
    Euclidean norm of a row's values, and division. *)
Context {float : Type}.
Variable idf_weight : nat -> nat -> float.
Variable tf_mul : nat -> float -> float.
Variable l2_norm : list float -> float.
Variable fdiv : float -> float -> float.

(** [LogisticRegression()]: fitting and prediction. *)
Context {LogisticRegression : Type}.
Variable lr_fit : csr_matrix float -> list Z -> result LogisticRegression.
Variable lr_predict : LogisticRegression -> csr_matrix float -> list Z.

(** *** Cell 4: [sklearn.utils.shuffle] *)

(** Modelled from the spec: [sklearn.utils.shuffle] is library code.  The
    rows are reordered by a permutation drawn from the generator; the
    notebook passes no [random_state], so the generator is numpy's
    process-wide one, [global_rng]. *)
Definition shuffle {A : Type} (global_rng : RandomState) (frame : list A) : list A :=
  iloc frame (rng_permutation global_rng (length frame)).

(** *** Cell 6: [train_test_split] *)

(** [ceil(test_size * n_samples)] *)
Definition n_test_of (test_size : Q) (n_samples : nat) : nat :=
  Z.to_nat (Qceiling (test_size * inject_Z (Z.of_nat n_samples))).

(** Modelled from the spec: [sklearn.model_selection.train_test_split] is
    library code.  The spec's contract (4.2): every record goes to exactly
    one side, the test side has the configured fraction, and the partition
    is fixed by the seed.  The sizes and the refusal of an empty training
    side are the library's documented rule: the test side has
    [ceil(test_size * n)] rows, taken from the front of a seeded
    permutation, and the training side has the rest. *)
Definition train_test_split {A B : Type} (X : list (nat * A)) (y : list (nat * B))
    (test_size : Q) (random_state : Z)
    : result (list (nat * A) * list (nat * A) * list (nat * B) * list (nat * B)) :=
  let n_samples := length X in
  if negb (length y =? n_samples)%nat then Raise ValueError
  else if Qle_bool test_size 0 || Qle_bool 1 test_size then Raise ValueError
  else
    let n_test := n_test_of test_size n_samples in
    let n_train := (n_samples - n_test)%nat in
    if (n_train =? 0)%nat then Raise ValueError
    else
      let permutation := rng_permutation (RandomState_seed random_state) n_samples in
      let ind_test := take n_test permutation in
      let ind_train := take n_train (drop n_test permutation) in
      Return (iloc X ind_train, iloc X ind_test, iloc y ind_train, iloc y ind_test).

(** *** Cells 7, 8, 11, 13: [TfidfVectorizer] *)

(** Modelled from the spec: scikit-learn's [TfidfVectorizer] is library
    code.  The vectoriser object: its learnt attributes, the vocabulary
    and the inverse-document-frequency weights (spec 4.3), are absent
    until it is fitted. *)
Record TfidfVectorizer : Type := mkVectoriser {
  vocabulary_ : option (gmap string nat);
  idf_ : option (list float)
}.

(** [TfidfVectorizer(stop_words="english")] *)
Definition TfidfVectorizer_new : TfidfVectorizer := mkVectoriser None None.

(** Modelled from the spec: the outer loop of scikit-learn's
    [_count_vocab], library code: one row of counts per document. *)
Fixpoint count_documents (fixed_vocab : bool) (raw_documents : list string)
    (vocabulary : gmap string nat) (counted : list (gmap nat nat))
    : gmap string nat * list (gmap nat nat) :=
  match raw_documents with
  | [] => (vocabulary, counted)
  | doc :: rest =>
      let '(vocabulary', feature_counter) :=
        count_features fixed_vocab (analyze doc) vocabulary ∅ in
      count_documents fixed_vocab rest vocabulary' (counted ++ [feature_counter])
  end.

(** Modelled from the spec: [CountVectorizer._count_vocab] is library
    code.  While fitting it builds the vocabulary from the documents
    and fails when that is empty; with a fixed vocabulary it counts the
    known terms and ignores the others (spec 4.3). *)
Definition count_vocab (fixed_vocab : bool) (vocabulary : gmap string nat)
    (raw_documents : list string) : result (gmap string nat * csr_matrix nat) :=
  let '(vocabulary', counted) :=
    count_documents fixed_vocab raw_documents
      (if fixed_vocab then vocabulary else ∅) [] in
  if negb fixed_vocab && bool_decide (vocabulary' = ∅) then Raise ValueError
  else Return (vocabulary', mkCsr (size vocabulary') counted).

(** Modelled from the spec: scikit-learn's [TfidfTransformer.transform]
    is library code.  Every count is weighted by its column's inverse
    document frequency, then each row is divided by its Euclidean norm. *)
Definition tfidf_row (idf : list float) (row : gmap nat nat) : gmap nat float :=
  let weighted := map_imap (fun j c => tf_mul c <$> idf !! j) row in
  let norm := l2_norm (map_to_list weighted).*2 in
  (fun v => fdiv v norm) <$> weighted.

Definition tfidf_transform (idf : list float) (X : csr_matrix nat) : csr_matrix float :=
  mkCsr (n_features X) (tfidf_row idf <$> rows X).

(** Modelled from the spec: scikit-learn's [TfidfTransformer.fit] is
    library code: the weight of every column. *)
Definition tfidf_fit (X : csr_matrix nat) : list float :=
  let n_samples := length (rows X) in
  let df := document_frequency (rows X) in
  (fun j => idf_weight n_samples (default 0%nat (df !! j))) <$> seq 0 (n_features X).

(** Modelled from the spec: [TfidfVectorizer.fit_transform] is library
    code.  Fit contract (spec 4.3): from the training texts it builds the
    vocabulary and the inverse-document-frequency weights, stores both in
    the object and returns the training matrix. *)
Definition fit_transform (self : TfidfVectorizer) (raw_documents : list string)
    : result (csr_matrix float * TfidfVectorizer) :=
  '(vocabulary, X) ← count_vocab false ∅ raw_documents;
  let '(vocabulary, sorted_rows) := sort_features (rows X) vocabulary in
  let X := mkCsr (n_features X) sorted_rows in
  let idf := tfidf_fit X in
  Return (tfidf_transform idf X, mkVectoriser (Some vocabulary) (Some idf)).

(** Modelled from the spec: [TfidfVectorizer.transform] is library code.
    Transform contract (spec 4.3): a vector over the fitted vocabulary
    for each text, terms outside the vocabulary ignored; on an object
    that was never fitted it raises (spec 7). *)
Definition transform (self : TfidfVectorizer) (raw_documents : list string)
    : result (csr_matrix float * TfidfVectorizer) :=
  match vocabulary_ self, idf_ self with
  | Some vocabulary, Some idf =>
      '(vocabulary', X) ← count_vocab true vocabulary raw_documents;
      Return (tfidf_transform idf X, mkVectoriser (Some vocabulary') (Some idf))
  | _, _ => Raise NotFittedError
  end.

(** ** The notebook, cell by cell *)

(** The variables the cells leave in the kernel. *)
Record globals : Type := mkGlobals {
  pos : list record;
  neg : list record;
  records_df : list (nat * record);
  X_train : list (nat * string);
  X_test : list (nat * string);
  y_train : list (nat * Z);
  y_test : list (nat * Z);
  vectoriser : TfidfVectorizer;
  x_train : csr_matrix float;
  model : LogisticRegression;
  y_train_pred : list Z;
  x_test : csr_matrix float;
  y_test_pred : list Z;
  example_text : string;
  example_label : Z;
  x_vect : csr_matrix float;
  y_pred : list Z
}.

(** Cell 4: load both directories, build the frame, shuffle it with the
    process-wide generator and renumber the rows. *)
Definition cell_load (global_rng : RandomState) (fs : gmap string inode)
    : result (list record * list record * list (nat * record)) :=
  pos ← load_data fs pos_data_dir 1;
  neg ← load_data fs neg_data_dir 0;
  let records_df := reset_index (shuffle global_rng (pd_DataFrame (pos ++ neg))) in
  Return (pos, neg, records_df).

(** Cell 6: [train_test_split(X, y, test_size=0.3, random_state=42)] *)
Definition cell_split (records_df : list (nat * record))
    : result (list (nat * string) * list (nat * string)
              * list (nat * Z) * list (nat * Z)) :=
  X ← getitem text records_df;
  y ← getitem label records_df;
  train_test_split X y (3 # 10) 42.

(** Cells 4 to 13 in order. *)
Definition run (global_rng : RandomState) (fs : gmap string inode) : result globals :=
  '(pos, neg, records_df) ← cell_load global_rng fs;
  '(X_train, X_test, y_train, y_test) ← cell_split records_df;
  let vectoriser := TfidfVectorizer_new in
  '(x_train, vectoriser) ← fit_transform vectoriser X_train.*2;
  model ← lr_fit x_train y_train.*2;
  let y_train_pred := lr_predict model x_train in
  '(x_test, vectoriser) ← transform vectoriser X_test.*2;
  let y_test_pred := lr_predict model x_test in
  example_text ← list_index X_test.*2 1;
  example_label ← list_index y_test.*2 1;
  '(x_vect, vectoriser) ← transform vectoriser [example_text];
  let y_pred := lr_predict model x_vect in
  _ ← list_index y_pred 0;
  Return (mkGlobals pos neg records_df X_train X_test y_train y_test vectoriser
            x_train model y_train_pred x_test y_test_pred example_text example_label
            x_vect y_pred).

(** ** The paths and the suffix test *)

Example pos_data_dir_eq : pos_data_dir = "data/pos" /\ neg_data_dir = "data/neg".
Proof. split; reflexivity. Qed.

Example endswith_txt_ex :
  endswith "cv000_29590.txt" ".txt" = true /\ endswith "notes.TXT" ".txt" = false
  /\ endswith "txt" ".txt" = false /\ endswith ".txt" ".txt" = true.
Proof. repeat split; reflexivity. Qed.

Lemma slice_to_from (n : nat) (s : string) : slice_to n s +:+ slice_from n s = s.
Proof.
  revert s. induction n as [|n IH]; intros s; [done|].
  destruct s as [|c s]; [done|].
  change (String c (slice_to n s +:+ slice_from n s) = String c s).
  f_equal. apply IH.
Qed.

Lemma slice_from_app (p s : string) : slice_from (String.length p) (p +:+ s) = s.
Proof. induction p as [|c p IH]; [done|]. exact IH. Qed.

Lemma string_length_app (p s : string) :
  String.length (p +:+ s) = (String.length p + String.length s)%nat.
Proof.
  induction p as [|c p IH]; [done|].
  change (S (String.length (p +:+ s)) = S (String.length p + String.length s)).
  by f_equal.
Qed.

(** [endswith] holds exactly of the strings that are something followed
    by the suffix. *)
Lemma endswith_spec (s suffix : string) :
  endswith s suffix = true <-> exists p, s = p +:+ suffix.
Proof.
  unfold endswith. rewrite andb_true_iff, Nat.leb_le, String.eqb_eq. split.
  - intros [Hle Htail].
    exists (slice_to (String.length s - String.length suffix) s).
    rewrite <- Htail at 2. by rewrite slice_to_from.
  - intros [p ->]. rewrite string_length_app. split; [lia|].
    replace (String.length p + String.length suffix - String.length suffix)%nat
      with (String.length p) by lia.
    apply slice_from_app.
Qed.

(** ** The loader *)

Lemma bind_Return {A B : Type} (r : result A) (k : A -> result B) (b : B) :
  r ≫= k = Return b <-> exists a, r = Return a /\ k a = Return b.
Proof.
  destruct r as [e|a]; simpl; split.
  - discriminate.
  - intros (a & Ha & _). discriminate.
  - intros Hk. exists a. done.
  - intros (a' & [= ->] & Hk). done.
Qed.

Lemma bind_Raise {A B : Type} (r : result A) (k : A -> result B) (e : exception) :
  r ≫= k = Raise e <-> r = Raise e \/ exists a, r = Return a /\ k a = Raise e.
Proof.
  destruct r as [e'|a]; simpl; split.
  - intros [= ->]. by left.
  - intros [[= ->]|(a & Ha & _)]; [done|discriminate].
  - intros Hk. right. by exists a.
  - intros [Hr|(a' & [= ->] & Hk)]; [discriminate|done].
Qed.

(** One turn of the loop reads one file. *)
Lemma load_data_loop_cons fs l file rest records :
  load_data_loop fs l (file :: rest) records
  = read_text fs file ≫= fun t => load_data_loop fs l rest (records ++ [mkRecord t l]).
Proof.
  simpl. unfold read_text. by destruct (open fs file).
Qed.

(** The loop returns exactly when every file reads, and then it has
    appended the files' texts, in order, under the given label. *)
Lemma load_data_loop_Return fs l files records out :
  load_data_loop fs l files records = Return out
  <-> exists texts,
        Forall2 (fun file t => read_text fs file = Return t) files texts
        /\ out = records ++ ((fun t => mkRecord t l) <$> texts).
Proof.
  revert records. induction files as [|file rest IH]; intros records.
  - simpl. split.
    + intros [= <-]. exists []. split; [constructor|by rewrite app_nil_r].
    + intros (texts & Hall & ->). inversion Hall; subst. by rewrite app_nil_r.
  - rewrite load_data_loop_cons, bind_Return. split.
    + intros (t & Ht & Hrest). apply IH in Hrest as (texts & Hall & ->).
      exists (t :: texts). split; [by constructor|]. by rewrite <- app_assoc.
    + intros (texts & Hall & ->). inversion Hall as [|? t ? texts' Ht Hall']; subst.
      exists t. split; [done|]. apply IH. exists texts'.
      split; [done|]. by rewrite <- app_assoc.
Qed.


Lemma load_data_Return fs filepath l out :
  load_data fs filepath l = Return out
  <-> exists names texts,
        listdir fs filepath = Return names
        /\ Forall2 (fun name t => read_text fs (join filepath name) = Return t)
             (filter is_txt names) texts
        /\ out = (fun t => mkRecord t l) <$> texts.
Proof.
  unfold load_data. rewrite bind_Return. split.
  - intros (names & Hls & Hloop). apply load_data_loop_Return in Hloop as (texts & Hall & ->).
    exists names, texts. split; [done|]. split; [|done].
    by apply Forall2_fmap_l in Hall.
  - intros (names & texts & Hls & Hall & ->). exists names. split; [done|].
    apply load_data_loop_Return. exists texts. split; [|done].
    by apply Forall2_fmap_l.
Qed.

(** Reading a file that opens delivers the whole of its text. *)
Lemma read_text_Return fs file t :
  read_text fs file = Return t <-> fs !! file = Some (RegularFile true (Some t)).
Proof.
  unfold read_text, open, read.
  destruct (fs !! file) as [[[] [s|]|]|]; simpl; split; intros H;
    try discriminate; try congruence.
Qed.

Lemma Forall2_of_exists {A B : Type} (R : A -> B -> Prop) (l : list A) :
  (forall x, x ∈ l -> exists y, R x y) -> exists k, Forall2 R l k.
Proof.
  induction l as [|x l IH]; intros H.
  - exists []. constructor.
  - destruct (H x) as [y Hy]; [by left|].
    destruct IH as [k Hk]; [intros z Hz; apply H; by right|].
    exists (y :: k). by constructor.
Qed.

(** Every record carries the label the loader was called with. *)
Lemma load_data_label fs filepath l out :
  load_data fs filepath l = Return out -> Forall (fun r => label r = l) out.
Proof.
  intros (names & texts & _ & _ & ->)%load_data_Return.
  apply Forall_fmap, Forall_forall. done.
Qed.

(** C3: every record loaded from the positive directory has label 1,
    every record loaded from the negative directory has label 0, and so
    every record of the combined list [pos + neg], and every row of the
    shuffled frame built from it, has a label in {0, 1}. *)
Theorem load_data_labels_binary global_rng fs pos neg records_df :
  cell_load global_rng fs = Return (pos, neg, records_df) ->
  load_data fs pos_data_dir 1 = Return pos
  /\ load_data fs neg_data_dir 0 = Return neg
  /\ Forall (fun r => label r = 1) pos
  /\ Forall (fun r => label r = 0) neg
  /\ Forall (fun r => label r = 0 \/ label r = 1) (pos ++ neg)
  /\ Forall (fun row => label row.2 = 0 \/ label row.2 = 1) records_df.
Proof.
  unfold cell_load. intros H.
  apply bind_Return in H as (pos' & Hpos & H).
  apply bind_Return in H as (neg' & Hneg & H).
  injection H as <- <- <-.
  pose proof (load_data_label _ _ _ _ Hpos) as Lpos.
  pose proof (load_data_label _ _ _ _ Hneg) as Lneg.
  assert (Lall : Forall (fun r => label r = 0 \/ label r = 1) (pos' ++ neg')).
  { apply Forall_app. split; eapply Forall_impl; eauto; simpl; auto. }
  repeat split; try done.
  apply Forall_forall. intros [i r] Hin. simpl.
  unfold reset_index in Hin. apply elem_of_zip_r in Hin.
  apply list_elem_of_fmap in Hin as ([j r'] & -> & Hin). simpl.
  unfold shuffle, iloc in Hin. apply list_elem_of_omap in Hin as (k & _ & Hk).
  apply list_elem_of_lookup_2 in Hk. unfold pd_DataFrame in Hk.
  apply elem_of_zip_r in Hk. rewrite Forall_forall in Lall. by apply Lall.
Qed.

(** C4: when the directory lists and each of its ".txt" files reads,
    the loader returns one record per ".txt" name: as many records as
    there are ".txt" names, the i-th record holding the i-th such file
    under the given label, and the names without the suffix account for
    the rest of the listing. *)
Theorem load_data_one_record_per_txt_file fs filepath l names :
  listdir fs filepath = Return names ->
  (forall name, name ∈ names -> is_txt name ->
     exists t, read_text fs (join filepath name) = Return t) ->
  exists records,
    load_data fs filepath l = Return records
    /\ length records = length (filter is_txt names)
    /\ Forall2 (fun name r =>
                  read_text fs (join filepath name) = Return (text r) /\ label r = l)
         (filter is_txt names) records
    /\ (length records + length (filter (fun name => ~ is_txt name) names)
        = length names)%nat.
Proof.
  intros Hls Hread.
  destruct (Forall2_of_exists
              (fun name t => read_text fs (join filepath name) = Return t)
              (filter is_txt names)) as [texts Htexts].
  { intros name [Htxt Hin]%list_elem_of_filter. by apply Hread. }
  exists ((fun t => mkRecord t l) <$> texts).
  assert (Hlen : length ((fun t => mkRecord t l) <$> texts) = length (filter is_txt names)).
  { rewrite length_fmap. symmetry. by eapply Forall2_length. }
  split; [|split; [done|split]].
  - apply load_data_Return. by exists names, texts.
  - apply Forall2_fmap_r. eapply Forall2_impl; [exact Htexts|]. simpl. auto.
  - rewrite Hlen, <- length_app. apply Permutation_length, filter_app_complement.
Qed.


(** C10: when the directory lists and each of its ".txt" names is a
    readable file that decodes, the loader returns a list whose i-th
    record holds the whole text of the i-th ".txt" name in [listdir]'s
    order, under the given label; whatever list it returns is of that
    kind; and a directory that lists no ".txt" name gives the empty list
    and no failure. *)
Theorem load_data_listdir_order fs filepath l names :
  listdir fs filepath = Return names ->
  ((forall name, name ∈ names -> is_txt name ->
      exists t, fs !! join filepath name = Some (RegularFile true (Some t))) ->
   exists records,
     load_data fs filepath l = Return records
     /\ length records = length (filter is_txt names)
     /\ forall i name, filter is_txt names !! i = Some name ->
          exists r, records !! i = Some r /\ label r = l
            /\ fs !! join filepath name = Some (RegularFile true (Some (text r))))
  /\ (forall records, load_data fs filepath l = Return records ->
        length records = length (filter is_txt names)
        /\ forall i name, filter is_txt names !! i = Some name ->
             exists r, records !! i = Some r
               /\ fs !! join filepath name = Some (RegularFile true (Some (text r))))
  /\ (filter is_txt names = [] -> load_data fs filepath l = Return []).
Proof.
  intros Hls.
  assert (Hpost : forall records, load_data fs filepath l = Return records ->
            length records = length (filter is_txt names)
            /\ forall i name, filter is_txt names !! i = Some name ->
                 exists r, records !! i = Some r /\ label r = l
                   /\ fs !! join filepath name
                      = Some (RegularFile true (Some (text r)))).
  { intros records (names' & texts & Hls' & Hall & ->)%load_data_Return.
    assert (names' = names) as -> by congruence.
    split; [rewrite length_fmap; symmetry; by eapply Forall2_length|].
    intros i name Hi.
    destruct (Forall2_lookup_l _ _ _ _ _ Hall Hi) as (t & Ht & Hrd).
    exists (mkRecord t l). split; [by rewrite list_lookup_fmap, Ht|].
    split; [done|]. by apply read_text_Return. }
  split; [|split].
  - intros Hfiles.
    destruct (Forall2_of_exists
                (fun name t => read_text fs (join filepath name) = Return t)
                (filter is_txt names)) as [texts Htexts].
    { intros name [Htxt Hin]%list_elem_of_filter.
      destruct (Hfiles name Hin Htxt) as [t Ht]. exists t. by apply read_text_Return. }
    assert (Hret : load_data fs filepath l = Return ((fun t => mkRecord t l) <$> texts)).
    { apply load_data_Return. by exists names, texts. }
    eexists. split; [exact Hret|]. by apply Hpost.
  - intros records Hret. destruct (Hpost records Hret) as [Hlen Hrec].
    split; [done|]. intros i name Hi.
    destruct (Hrec i name Hi) as (r & Hr & _ & Hfile). by exists r.
  - intros Hnone. apply load_data_Return. exists names, [].
    rewrite Hnone. repeat split; [done|constructor].
Qed.

(** ** The splitter *)

(** The seeded and the process-wide generator alike leave [arange(n)] in
    some order: every position once. *)
Hypothesis rng_permutation_perm :
  forall (g : RandomState) (n : nat), rng_permutation g n ≡ₚ seq 0 n.

Lemma iloc_seq_app {A : Type} (pre frame : list A) :
  iloc (pre ++ frame) (seq (length pre) (length frame)) = frame.
Proof.
  revert pre. induction frame as [|x frame IH]; intros pre; [done|].
  unfold iloc in *. simpl.
  rewrite lookup_app_r, Nat.sub_diag by lia. simpl. f_equal.
  specialize (IH (pre ++ [x])).
  rewrite <- app_assoc, length_app in IH. simpl in IH.
  by rewrite Nat.add_1_r in IH.
Qed.

Lemma iloc_seq {A : Type} (frame : list A) :
  iloc frame (seq 0 (length frame)) = frame.
Proof. apply (iloc_seq_app [] frame). Qed.

(** Taking the rows at a permutation of the positions keeps every row,
    once. *)
Lemma iloc_Permutation {A : Type} (frame : list A) (indices : list nat) :
  indices ≡ₚ seq 0 (length frame) -> iloc frame indices ≡ₚ frame.
Proof.
  intros Hp. unfold iloc. rewrite Hp. fold (iloc frame (seq 0 (length frame))).
  by rewrite iloc_seq.
Qed.

Lemma iloc_app {A : Type} (frame : list A) (i1 i2 : list nat) :
  iloc frame (i1 ++ i2) = iloc frame i1 ++ iloc frame i2.
Proof. apply omap_app. Qed.

Lemma iloc_length_le {A : Type} (frame : list A) (indices : list nat) :
  (length (iloc frame indices) <= length indices)%nat.
Proof.
  unfold iloc. induction indices as [|i indices IH]; [done|].
  cbn [omap list_omap length]. fold (@omap list _ _ _ (fun i => frame !! i) indices).
  destruct (frame !! i); cbn [length]; lia.
Qed.

(** The index labels that [iloc] selects do not depend on the column. *)
Lemma iloc_labels {A B : Type} (X : list (nat * A)) (y : list (nat * B)) indices :
  y.*1 = X.*1 -> (iloc y indices).*1 = (iloc X indices).*1.
Proof.
  intros Hxy. unfold iloc. induction indices as [|i indices IH]; [done|].
  assert (Hi : fst <$> (y !! i) = fst <$> (X !! i)).
  { by rewrite <- !list_lookup_fmap, Hxy. }
  cbn [omap list_omap].
  destruct (y !! i) as [[]|], (X !! i) as [[]|]; simpl in Hi; try discriminate.
  - injection Hi as ->. rewrite !fmap_cons. simpl. f_equal. exact IH.
  - exact IH.
Qed.

(** [ceil(0.3 * n)] *)
Lemma n_test_of_3_10 (n : nat) : n_test_of (3 # 10) n = ((3 * n + 9) / 10)%nat.
Proof.
  unfold n_test_of, Qceiling, Qfloor, Qopp, Qmult, inject_Z. simpl Qnum. simpl Qden.
  apply Nat2Z.inj. rewrite Z2Nat.id.
  - rewrite Nat2Z.inj_div, Nat2Z.inj_add, Nat2Z.inj_mul. simpl Z.of_nat.
    change (Z.pos (10 * 1)) with 10.
    pose proof (Z.div_mod (- (3 * Z.of_nat n)) 10 ltac:(lia)).
    pose proof (Z.mod_pos_bound (- (3 * Z.of_nat n)) 10 ltac:(lia)).
    pose proof (Z.div_mod (3 * Z.of_nat n + 9) 10 ltac:(lia)).
    pose proof (Z.mod_pos_bound (3 * Z.of_nat n + 9) 10 ltac:(lia)).
    lia.
  - change (Z.pos (10 * 1)) with 10.
    pose proof (Z.div_mod (- (3 * Z.of_nat n)) 10 ltac:(lia)).
    pose proof (Z.mod_pos_bound (- (3 * Z.of_nat n)) 10 ltac:(lia)).
    lia.
Qed.

(** What the splitter returns on at least two rows, in closed form: the
    test side is the rows at the first [ceil(0.3 n)] positions of the
    seeded permutation, the training side the rows at the others. *)
Lemma train_test_split_eq {A B : Type} (X : list (nat * A)) (y : list (nat * B)) seed :
  length y = length X -> (2 <= length X)%nat ->
  let p := rng_permutation (RandomState_seed seed) (length X) in
  let k := ((3 * length X + 9) / 10)%nat in
  train_test_split X y (3 # 10) seed
  = Return (iloc X (drop k p), iloc X (take k p), iloc y (drop k p), iloc y (take k p)).
Proof.
  intros Hy Hn p k. unfold train_test_split.
  rewrite Hy, Nat.eqb_refl. simpl negb. cbn [Qle_bool orb].
  change (Qle_bool (3 # 10) 0) with false. change (Qle_bool 1 (3 # 10)) with false.
  cbn [orb]. rewrite n_test_of_3_10. fold k. fold p.
  assert (Hk : (10 * k <= 3 * length X + 9)%nat).
  { unfold k. pose proof (Nat.div_mod (3 * length X + 9) 10 ltac:(lia)). lia. }
  destruct (length X - k =? 0)%nat eqn:E; [apply Nat.eqb_eq in E; lia|].
  assert (Hp : length p = length X).
  { unfold p. rewrite (Permutation_length (rng_permutation_perm _ _)). apply length_seq. }
  rewrite (take_ge (drop k p)); [done|]. rewrite length_drop. lia.
Qed.

(** C2, as amended: on a collection of at least two rows the splitter returns a
    training and a test side that together hold every row exactly once:
    the sizes add up to the size of the collection, the two sides share
    no index label, text and label sides carry the same index labels, and
    the test side has [ceil(0.3 n)] rows, that is between 30% of the rows
    and one row more. *)
Theorem train_test_split_partition {A B : Type}
    (X : list (nat * A)) (y : list (nat * B)) (seed : Z) :
  length y = length X -> (2 <= length X)%nat ->
  exists X_train X_test y_train y_test,
    train_test_split X y (3 # 10) seed = Return (X_train, X_test, y_train, y_test)
    /\ (length X_train + length X_test = length X)%nat
    /\ (length y_train + length y_test = length X)%nat
    /\ X_train ++ X_test ≡ₚ X
    /\ y_train ++ y_test ≡ₚ y
    /\ (NoDup X.*1 -> forall i, i ∈ X_train.*1 -> i ∉ X_test.*1)
    /\ (y.*1 = X.*1 -> y_train.*1 = X_train.*1 /\ y_test.*1 = X_test.*1)
    /\ (3 * length X <= 10 * length X_test < 3 * length X + 10)%nat.
Proof.
  intros Hy Hn.
  set (p := rng_permutation (RandomState_seed seed) (length X)).
  set (k := ((3 * length X + 9) / 10)%nat).
  exists (iloc X (drop k p)), (iloc X (take k p)), (iloc y (drop k p)), (iloc y (take k p)).
  assert (Hp : p ≡ₚ seq 0 (length X)) by apply rng_permutation_perm.
  assert (Hlp : length p = length X) by (rewrite Hp; apply length_seq).
  assert (HX : iloc X (drop k p) ++ iloc X (take k p) ≡ₚ X).
  { rewrite Permutation_app_comm, <- iloc_app, take_drop. by apply iloc_Permutation. }
  assert (Hyp : iloc y (drop k p) ++ iloc y (take k p) ≡ₚ y).
  { rewrite Permutation_app_comm, <- iloc_app, take_drop.
    apply iloc_Permutation. by rewrite Hy. }
  assert (HlX : (length (iloc X (drop k p)) + length (iloc X (take k p)) = length X)%nat).
  { by rewrite <- length_app, HX. }
  assert (Hk : (10 * k <= 3 * length X + 9 < 10 * k + 10)%nat).
  { unfold k. pose proof (Nat.div_mod (3 * length X + 9) 10 ltac:(lia)).
    pose proof (Nat.mod_upper_bound (3 * length X + 9) 10 ltac:(lia)). lia. }
  split; [by apply train_test_split_eq|].
  split; [done|]. split; [by rewrite <- length_app, Hyp|].
  split; [done|]. split; [done|]. split; [|split].
  - intros Hnd i Hi. rewrite <- HX, fmap_app in Hnd.
    apply NoDup_app in Hnd as (_ & Hdis & _). by apply Hdis.
  - intros Hxy. split; by apply iloc_labels.
  - pose proof (iloc_length_le X (take k p)) as H1.
    pose proof (iloc_length_le X (drop k p)) as H2.
    rewrite length_take in H1. rewrite length_drop in H2. lia.
Qed.

(** Below two rows the training side would be empty, and the splitter
    raises instead of returning. *)
Lemma train_test_split_too_small {A B : Type}
    (X : list (nat * A)) (y : list (nat * B)) (seed : Z) :
  (length X < 2)%nat -> train_test_split X y (3 # 10) seed = Raise ValueError.
Proof.
  intros Hn. unfold train_test_split.
  destruct (negb (length y =? length X)%nat); [done|].
  change (Qle_bool (3 # 10) 0) with false. change (Qle_bool 1 (3 # 10)) with false.
  cbn [orb]. rewrite n_test_of_3_10.
  destruct (length X) as [|[|n]]; [done|done|lia].
Qed.

(** ** The vectoriser *)

Lemma bump_is_Some (i j : nat) (c : gmap nat nat) :
  is_Some (bump i c !! j) <-> j = i \/ is_Some (c !! j).
Proof.
  unfold bump.
  destruct (c !! i) as [n|] eqn:E; rewrite lookup_insert_is_Some;
    (split; [intros [<-|[_ H]]; auto|]);
    (intros [->|H]; [by left|]);
    (destruct (decide (i = j)); [by left|by right]).
Qed.

(** With a fixed vocabulary the counting loop only looks terms up: the
    dictionary it was handed comes back as it was. *)
Lemma count_features_fixed features vocabulary feature_counter :
  (count_features true features vocabulary feature_counter).1 = vocabulary.
Proof.
  revert feature_counter. induction features as [|feature rest IH]; intros c; [done|].
  simpl. destruct (vocabulary !! feature); apply IH.
Qed.

(** Every column the loop stores an entry in is the index of a term of
    the document. *)
Lemma count_features_fixed_columns features vocabulary feature_counter j :
  is_Some ((count_features true features vocabulary feature_counter).2 !! j) ->
  is_Some (feature_counter !! j)
  \/ exists term, term ∈ features /\ vocabulary !! term = Some j.
Proof.
  revert feature_counter. induction features as [|feature rest IH]; intros c; [by left|].
  simpl. destruct (vocabulary !! feature) as [i|] eqn:E; intros H.
  - apply IH in H as [H|(term & Hin & Hv)].
    + apply bump_is_Some in H as [->|H]; [|by left].
      right. exists feature. split; [by left|done].
    + right. exists term. split; [by right|done].
  - apply IH in H as [H|(term & Hin & Hv)]; [by left|].
    right. exists term. split; [by right|done].
Qed.

(** A term outside the vocabulary leaves no trace in the counts. *)
Lemma count_features_fixed_unknown features vocabulary feature_counter word :
  vocabulary !! word = None ->
  count_features true (filter (fun term => term <> word) features) vocabulary feature_counter
  = count_features true features vocabulary feature_counter.
Proof.
  intros Hw. revert feature_counter.
  induction features as [|feature rest IH]; intros c; [done|].
  destruct (decide (feature = word)) as [->|Hne].
  - rewrite filter_cons_False by naive_solver. simpl. rewrite Hw. apply IH.
  - rewrite filter_cons_True by done. simpl.
    destruct (vocabulary !! feature); apply IH.
Qed.

Lemma count_documents_fixed raw_documents vocabulary counted :
  (count_documents true raw_documents vocabulary counted).1 = vocabulary.
Proof.
  revert counted. induction raw_documents as [|doc rest IH]; intros counted; [done|].
  simpl. pose proof (count_features_fixed (analyze doc) vocabulary ∅) as Hf.
  destruct (count_features true (analyze doc) vocabulary ∅) as [v' c]. simpl in Hf.
  subst v'. apply IH.
Qed.

(** One row per document, after the rows counted before. *)
Lemma count_documents_rows fixed_vocab raw_documents vocabulary counted :
  length (count_documents fixed_vocab raw_documents vocabulary counted).2
  = (length counted + length raw_documents)%nat.
Proof.
  revert vocabulary counted.
  induction raw_documents as [|doc rest IH]; intros vocabulary counted; simpl; [lia|].
  destruct (count_features fixed_vocab (analyze doc) vocabulary ∅) as [v' c].
  rewrite IH, length_app. simpl. lia.
Qed.

Lemma count_vocab_fixed vocabulary raw_documents :
  count_vocab true vocabulary raw_documents
  = Return (vocabulary,
            mkCsr (size vocabulary) (count_documents true raw_documents vocabulary []).2).
Proof.
  unfold count_vocab.
  pose proof (count_documents_fixed raw_documents vocabulary []) as Hd.
  destruct (count_documents true raw_documents vocabulary []) as [v' rows]. simpl in *.
  by subst v'.
Qed.

(** Transforming with a fitted object succeeds and hands the object back
    unchanged. *)
Lemma transform_fitted self vocabulary idf raw_documents :
  vocabulary_ self = Some vocabulary -> idf_ self = Some idf ->
  transform self raw_documents
  = Return (tfidf_transform idf
              (mkCsr (size vocabulary)
                 (count_documents true raw_documents vocabulary []).2),
            self).
Proof.
  intros Hv Hi. unfold transform. rewrite Hv, Hi, count_vocab_fixed. simpl.
  destruct self as [v i]. simpl in *. by subst.
Qed.

(** Transforming never changes the object: on an unfitted one it
    raises, on a fitted one it returns it as it was. *)
Lemma transform_preserves self raw_documents x self' :
  transform self raw_documents = Return (x, self') -> self' = self.
Proof.
  destruct (vocabulary_ self) as [vocabulary|] eqn:Hv; [|unfold transform; by rewrite Hv].
  destruct (idf_ self) as [idf|] eqn:Hi; [|unfold transform; by rewrite Hv, Hi].
  rewrite (transform_fitted _ _ _ _ Hv Hi). by intros [= _ <-].
Qed.

(** Fitting stores a vocabulary and its weights in the object. *)
Lemma fit_transform_fitted self raw_documents x self' :
  fit_transform self raw_documents = Return (x, self') ->
  exists vocabulary idf, vocabulary_ self' = Some vocabulary /\ idf_ self' = Some idf.
Proof.
  unfold fit_transform. intros H.
  apply bind_Return in H as ([v X] & _ & H).
  destruct (sort_features (rows X) v) as [v' sorted_rows].
  injection H as _ <-. by eexists _, _.
Qed.

Lemma tfidf_row_columns idf row j :
  is_Some (tfidf_row idf row !! j) -> is_Some (row !! j).
Proof.
  unfold tfidf_row. rewrite lookup_fmap, map_lookup_imap.
  destruct (row !! j); [by eexists|]. simpl. by intros [? [=]].
Qed.

(** While fitting, the loop adds only terms of the document to the
    vocabulary. *)
Lemma count_features_fit_terms features vocabulary feature_counter term :
  is_Some ((count_features false features vocabulary feature_counter).1 !! term) ->
  is_Some (vocabulary !! term) \/ term ∈ features.
Proof.
  revert vocabulary feature_counter.
  induction features as [|feature rest IH]; intros vocabulary c; [by left|].
  simpl. destruct (vocabulary !! feature) as [i|] eqn:E; intros H.
  - apply IH in H as [H|H]; [by left|right; by right].
  - apply IH in H as [H|H]; [|right; by right].
    apply lookup_insert_is_Some in H as [<-|[_ H]]; [right; by left|by left].
Qed.

Lemma count_documents_fit_terms raw_documents vocabulary counted term :
  is_Some ((count_documents false raw_documents vocabulary counted).1 !! term) ->
  is_Some (vocabulary !! term)
  \/ exists doc, doc ∈ raw_documents /\ term ∈ analyze doc.
Proof.
  revert vocabulary counted.
  induction raw_documents as [|doc rest IH]; intros vocabulary counted; [by left|].
  simpl. pose proof (count_features_fit_terms (analyze doc) vocabulary ∅ term) as Hf.
  destruct (count_features false (analyze doc) vocabulary ∅) as [v' c]. simpl in Hf.
  intros H. apply IH in H as [H|(d & Hd & Ht)].
  - apply Hf in H as [H|H]; [by left|]. right. exists doc. split; [by left|done].
  - right. exists d. split; [by right|done].
Qed.

(** Sorting renumbers the terms; it neither adds nor drops one. *)
Lemma sort_features_terms {V : Type} (X : list (gmap nat V)) vocabulary term j :
  (sort_features X vocabulary).1 !! term = Some j -> is_Some (vocabulary !! term).
Proof.
  unfold sort_features. simpl. intros H.
  apply elem_of_list_to_map_2, elem_of_zip_l in H.
  rewrite merge_sort_Permutation in H.
  apply list_elem_of_fmap in H as ([t i] & -> & H).
  apply elem_of_map_to_list in H. by eexists.
Qed.

Lemma sort_features_size {V : Type} (X : list (gmap nat V)) vocabulary :
  size (sort_features X vocabulary).1 = size vocabulary.
Proof.
  unfold sort_features. simpl.
  set (sorted := merge_sort String.le (map_to_list vocabulary).*1).
  assert (Hp : sorted ≡ₚ (map_to_list vocabulary).*1) by apply merge_sort_Permutation.
  rewrite map_size_list_to_map.
  - rewrite length_zip, length_seq, Nat.min_id, Hp, length_fmap.
    apply length_map_to_list.
  - rewrite fst_zip by (rewrite length_seq; lia).
    rewrite Hp. apply NoDup_fst_map_to_list.
Qed.

(** What fitting leaves in the object: a vocabulary whose terms all occur
    in the documents it was fitted on, as wide as the matrix it
    returns. *)
Lemma fit_transform_vocabulary self raw_documents x self' :
  fit_transform self raw_documents = Return (x, self') ->
  exists vocabulary idf,
    vocabulary_ self' = Some vocabulary /\ idf_ self' = Some idf
    /\ n_features x = size vocabulary
    /\ length (rows x) = length raw_documents
    /\ forall term j, vocabulary !! term = Some j ->
         exists doc, doc ∈ raw_documents /\ term ∈ analyze doc.
Proof.
  unfold fit_transform. intros H.
  apply bind_Return in H as ([v X] & Hc & H). unfold count_vocab in Hc.
  pose proof (count_documents_fit_terms raw_documents ∅ []) as Hterms.
  pose proof (count_documents_rows false raw_documents ∅ []) as Hrows.
  destruct (count_documents false raw_documents ∅ []) as [v' counted].
  cbn [negb andb fst snd] in *.
  destruct (bool_decide (v' = ∅)); [discriminate|]. injection Hc as <- <-.
  cbn [rows n_features] in H.
  pose proof (sort_features_terms counted v') as Hs.
  pose proof (sort_features_size counted v') as Hz.
  assert (Hl : length (sort_features counted v').2 = length counted).
  { unfold sort_features. cbn [snd]. apply length_fmap. }
  destruct (sort_features counted v') as [v'' sorted_rows]. cbn [fst snd] in *.
  injection H as <- <-. exists v'', (tfidf_fit (mkCsr (size v') sorted_rows)).
  split; [done|]. split; [done|]. split; [simpl; lia|]. split.
  - unfold tfidf_transform. cbn [rows]. by rewrite length_fmap, Hl, Hrows.
  - intros term j Hj. apply Hs in Hj. apply Hterms in Hj as [Hj|Hj]; [|done].
    rewrite lookup_empty in Hj. by destruct Hj.
Qed.

(** C6: with a fitted vectoriser, transforming the same texts a second
    time, after the first call has returned the object, gives the same
    matrix again; the call succeeds both times. *)
Theorem transform_twice_identical self0 train x0 self raw_documents :
  fit_transform self0 train = Return (x0, self) ->
  exists x,
    transform self raw_documents = Return (x, self)
    /\ ('(x1, self1) ← transform self raw_documents;
        '(x2, self2) ← transform self1 raw_documents;
        Return (x1, x2, self2)) = Return (x, x, self).
Proof.
  intros (vocabulary & idf & Hv & Hi)%fit_transform_fitted.
  pose proof (transform_fitted self vocabulary idf raw_documents Hv Hi) as Ht.
  eexists. split; [exact Ht|]. rewrite Ht. simpl. by rewrite Ht.
Qed.

(** C7: a text with a word outside the fitted vocabulary is transformed
    without failure into one row over the vocabulary's columns; every
    entry stored in the row is the column of a vocabulary term of the
    text other than that word, and the row is the one the text gives with
    the word left out. *)
Theorem transform_unknown_word self0 train x0 self vocabulary text word :
  fit_transform self0 train = Return (x0, self) ->
  vocabulary_ self = Some vocabulary ->
  word ∈ analyze text -> vocabulary !! word = None ->
  exists row,
    transform self [text] = Return (mkCsr (n_features x0) [row], self)
    /\ (forall j, is_Some (row !! j) ->
          exists term, term ∈ analyze text /\ term <> word /\ vocabulary !! term = Some j)
    /\ (forall text', analyze text' = filter (fun term => term <> word) (analyze text) ->
          transform self [text'] = transform self [text]).
Proof.
  intros Hfit Hv Hin Hw.
  apply fit_transform_vocabulary in Hfit as (v & idf & Hv' & Hi & Hwidth & _ & _).
  assert (v = vocabulary) as -> by congruence.
  exists (tfidf_row idf (count_features true (analyze text) vocabulary ∅).2).
  split; [|split].
  - rewrite (transform_fitted self vocabulary idf [text] Hv Hi). simpl.
    pose proof (count_features_fixed (analyze text) vocabulary ∅) as Hf.
    destruct (count_features true (analyze text) vocabulary ∅) as [v' c]. simpl in *.
    unfold tfidf_transform. simpl. by rewrite Hwidth.
  - intros j Hj%tfidf_row_columns.
    apply count_features_fixed_columns in Hj as [Hj|(term & Ht & Hj)].
    + rewrite lookup_empty in Hj. by destruct Hj.
    + exists term. split; [done|]. split; [|done]. intros ->. congruence.
  - intros text' Ha.
    rewrite !(transform_fitted self vocabulary idf _ Hv Hi). simpl.
    by rewrite Ha, (count_features_fixed_unknown _ _ _ _ Hw).
Qed.

(** ** The run *)

(** C8: in a completed run the vectoriser the kernel is left with is the
    object exactly as the one [fit_transform] call on the training texts
    produced it: the two later [transform] calls, on the test texts and
    on the example, were made on that state and returned it unchanged,
    and every term of its vocabulary occurs in a training text.  No
    [transform] call ever changes a vectoriser. *)
Theorem vectoriser_fitted_on_training_texts_only global_rng fs G :
  run global_rng fs = Return G ->
  fit_transform TfidfVectorizer_new (X_train G).*2 = Return (x_train G, vectoriser G)
  /\ transform (vectoriser G) (X_test G).*2 = Return (x_test G, vectoriser G)
  /\ transform (vectoriser G) [example_text G] = Return (x_vect G, vectoriser G)
  /\ (forall vocabulary term j,
        vocabulary_ (vectoriser G) = Some vocabulary -> vocabulary !! term = Some j ->
        exists doc, doc ∈ (X_train G).*2 /\ term ∈ analyze doc)
  /\ (forall self raw_documents x self',
        transform self raw_documents = Return (x, self') -> self' = self).
Proof.
  unfold run. intros H.
  apply bind_Return in H as ([[pos0 neg0] df] & _ & H).
  apply bind_Return in H as ([[[Xtr Xte] ytr] yte] & _ & H).
  apply bind_Return in H as ([xtr v1] & Hfit & H).
  apply bind_Return in H as (m & _ & H).
  apply bind_Return in H as ([xte v2] & Ht1 & H).
  apply bind_Return in H as (ex & _ & H).
  apply bind_Return in H as (el & _ & H).
  apply bind_Return in H as ([xv v3] & Ht2 & H).
  apply bind_Return in H as (y0 & _ & H).
  injection H as <-. cbn [X_train X_test vectoriser x_train x_test x_vect example_text].
  pose proof (transform_preserves _ _ _ _ Ht1) as ->.
  pose proof (transform_preserves _ _ _ _ Ht2) as ->.
  split; [done|]. split; [done|]. split; [done|]. split.
  - intros vocabulary term j Hv Hj.
    apply fit_transform_vocabulary in Hfit as (v & idf & Hv' & _ & _ & _ & Hterms).
    assert (v = vocabulary) as -> by congruence. by eapply Hterms.
  - intros self raw_documents x self'. apply transform_preserves.
Qed.

(** ** The evaluator *)

Lemma count_matches_le predicted actual :
  (count_matches predicted actual <= length predicted)%nat.
Proof.
  unfold count_matches.
  etransitivity; [apply length_filter|]. rewrite length_zip. lia.
Qed.

Lemma filter_ext_elem {A : Type} (P Q : A -> Prop)
    `{!forall x, Decision (P x)} `{!forall x, Decision (Q x)} (l : list A) :
  (forall x, x ∈ l -> P x <-> Q x) -> filter P l = filter Q l.
Proof.
  induction l as [|x l IH]; intros Hext; [done|].
  rewrite !filter_cons.
  assert (HPQ : P x <-> Q x) by (apply Hext; by left).
  rewrite IH by (intros z Hz; apply Hext; by right).
  destruct (decide (P x)), (decide (Q x)); tauto || done.
Qed.

(** Counting over the zipped pairs and counting the agreeing positions
    come to the same number. *)
Lemma count_matches_positions predicted actual :
  length predicted = length actual ->
  count_matches predicted actual = count_agreeing_positions predicted actual.
Proof.
  unfold count_matches, count_agreeing_positions.
  revert actual. induction predicted as [|p predicted IH] using rev_ind;
    intros actual Hlen; [done|].
  induction actual as [|a actual' _] using rev_ind.
  { rewrite length_app in Hlen. simpl in Hlen. lia. }
  rewrite !length_app in Hlen. simpl in Hlen.
  assert (Hl : length predicted = length actual') by lia.
  rewrite zip_with_app by done. rewrite length_app. simpl length at 1.
  rewrite Nat.add_1_r, seq_S, !filter_app, !length_app. simpl zip_with.
  f_equal.
  - rewrite (IH actual' Hl). f_equal. apply filter_ext_elem.
    intros i Hi%elem_of_seq. unfold agree_at.
    rewrite !lookup_app_l by lia. done.
  - rewrite !filter_cons, !filter_nil. unfold agree_at. simpl.
    rewrite lookup_app_r, Nat.sub_diag by lia.
    rewrite lookup_app_r by lia. rewrite Hl, Nat.sub_diag. simpl.
    destruct (decide (p = a)) as [->|Hne].
    + rewrite bool_decide_eq_true_2 by done. by rewrite !decide_True by done.
    + rewrite bool_decide_eq_false_2 by done. by rewrite !decide_False by done.
Qed.

(** C5, as amended: for non-empty sequences of the same length the
    evaluator returns an accuracy, which is the number of positions at
    which predicted and actual label agree over the number of positions
    and lies between 0 and 1; and accuracy_score([1,0,1],[1,1,1]) is
    2/3. *)
Theorem accuracy_score_matches_over_total predicted actual :
  length predicted = length actual -> predicted <> [] ->
  exists accuracy,
    accuracy_score predicted actual = Return accuracy
    /\ (accuracy
        == inject_Z (Z.of_nat (count_agreeing_positions predicted actual))
           / inject_Z (Z.of_nat (length predicted)))%Q
    /\ (0 <= accuracy <= 1)%Q
    /\ accuracy_score [1; 0; 1] [1; 1; 1] = Return (2 # 3).
Proof.
  intros Hlen Hne.
  pose proof (count_matches_le predicted actual) as Hle.
  pose proof (count_matches_positions predicted actual Hlen) as Hpos.
  unfold accuracy_score. rewrite Hlen, Nat.eqb_refl. cbn [negb]. rewrite <- Hlen.
  destruct (length predicted) as [|n] eqn:En.
  { destruct predicted; [done|discriminate En]. }
  cbn [Nat.eqb]. eexists. split; [reflexivity|]. split; [|split].
  - rewrite Hpos. reflexivity.
  - split.
    + apply Qle_shift_div_l; [unfold Qlt; simpl; lia|].
      unfold Qle. simpl. lia.
    + apply Qle_shift_div_r; [unfold Qlt; simpl; lia|].
      unfold Qle. simpl. lia.
  - reflexivity.
Qed.

(** Cell 6 on a frame of at least two rows, in closed form. *)
Lemma cell_split_eq (df : list (nat * record)) :
  (2 <= length df)%nat ->
  let p := rng_permutation (RandomState_seed 42) (length df) in
  let k := ((3 * length df + 9) / 10)%nat in
  let X := prod_map id text <$> df in
  let y := prod_map id label <$> df in
  cell_split df
  = Return (iloc X (drop k p), iloc X (take k p), iloc y (drop k p), iloc y (take k p)).
Proof.
  intros Hn p k X y. unfold cell_split, getitem.
  destruct df as [|row df]; [simpl in Hn; lia|]. cbn [mbind result_bind].
  pose proof (train_test_split_eq (prod_map id text <$> (row :: df))
                (prod_map id label <$> (row :: df)) 42) as Heq.
  rewrite !length_fmap in Heq. by apply Heq.
Qed.

(** C1, on the tiny corpus: two runs over the same files with the same
    split seed, in which the process-wide generator shuffles the frame
    into different orders, send the same row positions to the test side
    and yet put different reviews there, and different reviews on the
    training side. *)
Theorem shuffle_breaks_reproducibility g1 g2 :
  rng_permutation g1 4 = [0; 1; 2; 3]%nat ->
  rng_permutation g2 4 = [1; 2; 3; 0]%nat ->
  exists df1 df2 X_train1 X_test1 y_train1 y_test1 X_train2 X_test2 y_train2 y_test2,
    cell_load g1 tiny_corpus = Return (tiny_pos, tiny_neg, df1)
    /\ cell_load g2 tiny_corpus = Return (tiny_pos, tiny_neg, df2)
    /\ cell_split df1 = Return (X_train1, X_test1, y_train1, y_test1)
    /\ cell_split df2 = Return (X_train2, X_test2, y_train2, y_test2)
    /\ X_test1.*1 = X_test2.*1
    /\ ~ (X_test1.*2 ≡ₚ X_test2.*2)
    /\ ~ (X_train1.*2 ≡ₚ X_train2.*2).
Proof.
  intros H1 H2.
  assert (Hp : load_data tiny_corpus pos_data_dir 1 = Return tiny_pos)
    by (vm_compute; reflexivity).
  assert (Hn : load_data tiny_corpus neg_data_dir 0 = Return tiny_neg)
    by (vm_compute; reflexivity).
  set (frame := pd_DataFrame (tiny_pos ++ tiny_neg)).
  set (df1 := reset_index (iloc frame [0; 1; 2; 3]%nat)).
  set (df2 := reset_index (iloc frame [1; 2; 3; 0]%nat)).
  assert (HA : cell_load g1 tiny_corpus = Return (tiny_pos, tiny_neg, df1)).
  { unfold cell_load. rewrite Hp, Hn. cbn [mbind result_bind]. unfold shuffle.
    change (length (pd_DataFrame (tiny_pos ++ tiny_neg))) with 4%nat. by rewrite H1. }
  assert (HB : cell_load g2 tiny_corpus = Return (tiny_pos, tiny_neg, df2)).
  { unfold cell_load. rewrite Hp, Hn. cbn [mbind result_bind]. unfold shuffle.
    change (length (pd_DataFrame (tiny_pos ++ tiny_neg))) with 4%nat. by rewrite H2. }
  pose proof (cell_split_eq df1 ltac:(vm_compute; lia)) as HS1.
  pose proof (cell_split_eq df2 ltac:(vm_compute; lia)) as HS2.
  change (length df1) with 4%nat in HS1. change (length df2) with 4%nat in HS2.
  cbv zeta in HS1, HS2.
  change ((3 * 4 + 9) / 10)%nat with 2%nat in HS1, HS2.
  pose proof (rng_permutation_perm (RandomState_seed 42) 4) as Hperm.
  remember (rng_permutation (RandomState_seed 42) 4) as p eqn:Ep. clear Ep.
  do 10 eexists.
  split; [exact HA|]. split; [exact HB|]. split; [exact HS1|]. split; [exact HS2|].
  symmetry in Hperm. apply permutations_Permutation in Hperm.
  clear HA HB HS1 HS2 Hp Hn H1 H2.
  vm_compute in Hperm.
  repeat (apply elem_of_cons in Hperm as [->|Hperm]);
    try (by apply elem_of_nil in Hperm);
    (split; [vm_compute; reflexivity|]);
    split; apply (proj1 (bool_decide_eq_false _)); vm_compute; reflexivity.
Qed.

(** ** More on the loader *)

(** [f] applied to the value of a statement that completes. *)
Definition result_map {A B : Type} (f : A -> B) (r : result A) : result B :=
  match r with
  | Raise e => Raise e
  | Return a => Return (f a)
  end.

(** The same record under another label. *)
Definition relabel (l : Z) (r : record) : record := mkRecord (text r) l.

(** The loop raises [e] exactly when some file raises [e] on reading and
    every file before it reads. *)
Lemma load_data_loop_Raise_iff fs l files records e :
  load_data_loop fs l files records = Raise e
  <-> exists pre file post texts,
        files = pre ++ file :: post
        /\ Forall2 (fun f t => read_text fs f = Return t) pre texts
        /\ read_text fs file = Raise e.
Proof.
  revert records. induction files as [|f rest IH]; intros records.
  - simpl. split; [discriminate|].
    intros (pre & file & post & texts & Hsplit & _). by destruct pre.
  - rewrite load_data_loop_cons, bind_Raise. split.
    + intros [Hbad|(t & Ht & Hrest)].
      * exists [], f, rest, []. split; [done|]. split; [constructor|done].
      * apply IH in Hrest as (pre & file & post & texts & -> & Hall & Hbad).
        exists (f :: pre), file, post, (t :: texts).
        split; [done|]. split; [by constructor|done].
    + intros (pre & file & post & texts & Hsplit & Hall & Hbad).
      destruct pre as [|f' pre]; simpl in Hsplit.
      * injection Hsplit as -> ->. by left.
      * injection Hsplit as -> ->.
        inversion Hall as [|? t ? texts' Ht Hall']; subst.
        right. exists t. split; [done|]. apply IH.
        by exists pre, file, post, texts'.
Qed.

(** X1: the loader raises [e] exactly when listing the directory raises
    [e], or the first ".txt" name, in listing order, whose file does not
    read raises [e]; the files listed after it play no part. *)
Theorem load_data_first_failure fs filepath l e :
  load_data fs filepath l = Raise e
  <-> listdir fs filepath = Raise e
      \/ exists names pre name post,
           listdir fs filepath = Return names
           /\ filter is_txt names = pre ++ name :: post
           /\ (forall n, n ∈ pre -> exists t, read_text fs (join filepath n) = Return t)
           /\ read_text fs (join filepath name) = Raise e.
Proof.
  unfold load_data. rewrite bind_Raise. split.
  - intros [Hls|(names & Hls & Hloop)]; [by left|]. right.
    apply load_data_loop_Raise_iff in Hloop as (pre & file & post & texts & Hsplit & Hall & Hbad).
    apply fmap_app_inv in Hsplit as (pre' & rest & -> & Hrest & Hnames).
    symmetry in Hrest. apply fmap_cons_inv in Hrest as (name & post' & -> & -> & ->).
    exists names, pre', name, post'. split; [done|]. split; [done|]. split; [|done].
    intros n Hn. apply Forall2_fmap_l in Hall.
    apply list_elem_of_lookup in Hn as [i Hi].
    destruct (Forall2_lookup_l _ _ _ _ _ Hall Hi) as (t & _ & Ht). by exists t.
  - intros [Hls|(names & pre & name & post & Hls & Hsplit & Hpre & Hbad)]; [by left|].
    right. exists names. split; [done|].
    apply load_data_loop_Raise_iff.
    destruct (Forall2_of_exists
                (fun n t => read_text fs (join filepath n) = Return t) pre Hpre)
      as [texts Htexts].
    exists (join filepath <$> pre), (join filepath name), (join filepath <$> post), texts.
    split; [|split; [by apply Forall2_fmap_l|done]].
    change (filter (fun filename => endswith filename ".txt" = true) names)
      with (filter is_txt names).
    by rewrite Hsplit, fmap_app, fmap_cons.
Qed.

(** Reading a file looks at nothing but what its own path names. *)
Lemma read_text_lookup fs fs' file :
  fs !! file = fs' !! file -> read_text fs file = read_text fs' file.
Proof. unfold read_text, open. by intros ->. Qed.

Lemma load_data_loop_ext fs fs' l files records :
  (forall f, f ∈ files -> fs !! f = fs' !! f) ->
  load_data_loop fs l files records = load_data_loop fs' l files records.
Proof.
  revert records. induction files as [|f rest IH]; intros records Hagree; [done|].
  rewrite !load_data_loop_cons.
  rewrite (read_text_lookup fs fs' f) by (apply Hagree; by left).
  destruct (read_text fs' f) as [e|t]; [done|]. simpl.
  apply IH. intros f' Hf'. apply Hagree. by right.
Qed.

(** X2: the loader looks at the directory's listing and at the files
    under its ".txt" names, and at nothing else: on two trees that agree
    there it gives the same records, or the same exception. *)
Theorem load_data_reads_only_txt fs fs' filepath l :
  listdir fs filepath = listdir fs' filepath ->
  (forall names name,
      listdir fs filepath = Return names -> name ∈ names -> is_txt name ->
      fs !! join filepath name = fs' !! join filepath name) ->
  load_data fs filepath l = load_data fs' filepath l.
Proof.
  intros Hls Hfiles. unfold load_data. rewrite <- Hls.
  destruct (listdir fs filepath) as [e|names] eqn:E; [done|]. simpl.
  apply load_data_loop_ext. intros f Hf.
  apply list_elem_of_fmap in Hf as (name & -> & Hname).
  apply list_elem_of_filter in Hname as [Htxt Hin]. by eapply Hfiles.
Qed.

Lemma load_data_loop_relabel fs l l' files records :
  load_data_loop fs l' files (relabel l' <$> records)
  = result_map (fmap (relabel l')) (load_data_loop fs l files records).
Proof.
  revert records. induction files as [|f rest IH]; intros records; [done|].
  rewrite !load_data_loop_cons.
  destruct (read_text fs f) as [e|t]; [done|]. simpl.
  rewrite <- IH. by rewrite fmap_app.
Qed.

(** X3: the label argument decides nothing but the label field: called
    with another label the loader reads the same files, raises the same
    exception, or returns the same texts in the same order under the other
    label. *)
Theorem load_data_label_only_labels fs filepath l l' :
  load_data fs filepath l' = result_map (fmap (relabel l')) (load_data fs filepath l).
Proof.
  unfold load_data.
  destruct (listdir fs filepath) as [e|names]; [done|]. simpl.
  apply (load_data_loop_relabel fs l l' _ []).
Qed.

(** X4: the names the loader keeps are exactly those that are some stem
    followed by ".txt": at least four characters long, the bare name
    ".txt" among them, and the comparison is case-sensitive. *)
Theorem is_txt_stem name :
  (is_txt name <-> exists stem, name = stem +:+ ".txt")
  /\ (is_txt name -> (4 <= String.length name)%nat)
  /\ is_txt ".txt" /\ ~ is_txt (name +:+ ".TXT") /\ ~ is_txt (name +:+ ".txt ").
Proof.
  assert (Hiff : is_txt name <-> exists stem, name = stem +:+ ".txt")
    by apply endswith_spec.
  split; [done|]. split; [|split; [done|split]].
  - intros (stem & ->)%Hiff. rewrite string_length_app. simpl. lia.
  - unfold is_txt, endswith. rewrite string_length_app. simpl String.length.
    replace (String.length name + 4 - 4)%nat with (String.length name) by lia.
    rewrite slice_from_app. rewrite andb_true_iff. by intros [_ ?].
  - unfold is_txt, endswith. rewrite string_length_app. simpl String.length.
    replace (String.length name + 5 - 4)%nat with (String.length name + 1)%nat by lia.
    replace (name +:+ ".txt ") with ((name +:+ ".") +:+ "txt ").
    + replace (String.length name + 1)%nat with (String.length (name +:+ "."))
        by (rewrite string_length_app; simpl; lia).
      rewrite slice_from_app. rewrite andb_true_iff. by intros [_ ?].
    + clear. induction name as [|c name IH]; [done|].
      change (String c ((name +:+ ".") +:+ "txt ") = String c (name +:+ ".txt ")).
      by f_equal.
Qed.

Lemma Forall2_Permutation_l {A B : Type} (R : A -> B -> Prop) (l l' : list A) (k : list B) :
  l ≡ₚ l' -> Forall2 R l k -> exists k', Forall2 R l' k' /\ k ≡ₚ k'.
Proof.
  intros Hp. revert k.
  induction Hp as [|x l l' Hp IH|x y l|l l' l'' Hp1 IH1 Hp2 IH2]; intros k Hall.
  - inversion Hall; subst. exists []. by split.
  - inversion Hall as [|? b ? k0 Hx Hrest]; subst.
    destruct (IH k0 Hrest) as (k' & Hk' & Hperm).
    exists (b :: k'). split; [by constructor|by constructor].
  - inversion Hall as [|? b ? k0 Hy Hrest]; subst.
    inversion Hrest as [|? c ? k1 Hx Hrest']; subst.
    exists (c :: b :: k1). split; [by repeat constructor|apply perm_swap].
  - destruct (IH1 k Hall) as (k1 & Hk1 & Hperm1).
    destruct (IH2 k1 Hk1) as (k2 & Hk2 & Hperm2).
    exists k2. split; [done|by etransitivity].
Qed.

(** X5: the order in which the system lists the directory decides the
    order of the records and nothing else: on a tree whose listing is a
    rearrangement of this one's, with the same files under the names, the
    loader returns a rearrangement of the same records. *)
Theorem load_data_listing_order fs fs' filepath l names names' out :
  listdir fs filepath = Return names ->
  listdir fs' filepath = Return names' ->
  names ≡ₚ names' ->
  (forall name, name ∈ names -> fs !! join filepath name = fs' !! join filepath name) ->
  load_data fs filepath l = Return out ->
  exists out', load_data fs' filepath l = Return out' /\ out ≡ₚ out'.
Proof.
  intros Hls Hls' Hperm Hfiles (names0 & texts & Hls0 & Hall & ->)%load_data_Return.
  assert (names0 = names) as -> by congruence.
  assert (Hfilter : filter is_txt names ≡ₚ filter is_txt names') by by rewrite Hperm.
  destruct (Forall2_Permutation_l _ _ _ _ Hfilter Hall) as (texts' & Hall' & Htexts).
  exists ((fun t => mkRecord t l) <$> texts'). split; [|by rewrite Htexts].
  apply load_data_Return. exists names', texts'. split; [done|]. split; [|done].
  apply Forall2_same_length_lookup. split; [by eapply Forall2_length|].
  intros i name t Hname Ht.
  pose proof (Forall2_lookup_lr _ _ _ _ _ _ Hall' Hname Ht) as Hread.
  rewrite <- Hread. symmetry. apply read_text_lookup, Hfiles.
  rewrite Hperm. apply list_elem_of_lookup_2 in Hname.
  by apply list_elem_of_filter in Hname as [_ ?].
Qed.

(** ** More on the cells *)

Lemma iloc_fmap {A B : Type} (f : A -> B) (frame : list A) (indices : list nat) :
  iloc (f <$> frame) indices = f <$> iloc frame indices.
Proof.
  unfold iloc. induction indices as [|i indices IH]; [done|].
  cbn [omap list_omap]. rewrite list_lookup_fmap.
  destruct (frame !! i); cbn [fmap option_fmap option_map];
    [by rewrite fmap_cons; f_equal|exact IH].
Qed.

Lemma iloc_elem_of {A : Type} (frame : list A) (indices : list nat) (x : A) :
  x ∈ iloc frame indices -> x ∈ frame.
Proof.
  unfold iloc. intros (i & _ & Hi)%list_elem_of_omap.
  by eapply list_elem_of_lookup_2.
Qed.

Lemma reset_index_labels {A : Type} (frame : list (nat * A)) :
  (reset_index frame).*1 = seq 0 (length frame)
  /\ (reset_index frame).*2 = frame.*2
  /\ length (reset_index frame) = length frame.
Proof.
  unfold reset_index. split; [|split].
  - apply fst_zip. rewrite length_seq, length_fmap. lia.
  - apply snd_zip. rewrite length_seq, length_fmap. lia.
  - rewrite length_zip, length_seq, length_fmap. lia.
Qed.

(** What cell 4 returns, read back: the two lists are what the loader
    gave, and the frame is the shuffled rows renumbered. *)
Lemma cell_load_Return global_rng fs pos neg df :
  cell_load global_rng fs = Return (pos, neg, df)
  <-> load_data fs pos_data_dir 1 = Return pos
      /\ load_data fs neg_data_dir 0 = Return neg
      /\ df = reset_index (shuffle global_rng (pd_DataFrame (pos ++ neg))).
Proof.
  unfold cell_load. split.
  - intros H. apply bind_Return in H as (pos' & Hpos & H).
    apply bind_Return in H as (neg' & Hneg & H). by injection H as <- <- <-.
  - intros (-> & -> & ->). done.
Qed.

(** What the splitter returns, read back, for any generator: the sides
    are the rows at two stretches of the seeded permutation. *)
Lemma train_test_split_Return {A B : Type} (X : list (nat * A)) (y : list (nat * B))
    seed X_train X_test y_train y_test :
  train_test_split X y (3 # 10) seed = Return (X_train, X_test, y_train, y_test) ->
  let n := length X in
  let k := ((3 * n + 9) / 10)%nat in
  let p := rng_permutation (RandomState_seed seed) n in
  length y = n /\ (2 <= n)%nat
  /\ X_train = iloc X (take (n - k) (drop k p)) /\ X_test = iloc X (take k p)
  /\ y_train = iloc y (take (n - k) (drop k p)) /\ y_test = iloc y (take k p).
Proof.
  intros H n k p. unfold train_test_split in H.
  destruct (length y =? length X)%nat eqn:Ey; [|discriminate H].
  apply Nat.eqb_eq in Ey. cbn [negb] in H.
  change (Qle_bool (3 # 10) 0) with false in H.
  change (Qle_bool 1 (3 # 10)) with false in H.
  cbn [orb] in H. rewrite n_test_of_3_10 in H. fold n k in H.
  destruct (n - k =? 0)%nat eqn:Ek; [discriminate H|].
  apply Nat.eqb_neq in Ek. fold p in H. injection H as <- <- <- <-.
  split; [done|]. split; [|done].
  destruct n as [|[|n]]; [done|done|lia].
Qed.

(** What cell 6 returns, read back: text and label sides are the two
    columns of the same rows of the frame. *)
Lemma cell_split_Return df X_train X_test y_train y_test :
  cell_split df = Return (X_train, X_test, y_train, y_test) ->
  let n := length df in
  let k := ((3 * n + 9) / 10)%nat in
  let p := rng_permutation (RandomState_seed 42) n in
  (2 <= n)%nat
  /\ X_train = prod_map id text <$> iloc df (take (n - k) (drop k p))
  /\ X_test = prod_map id text <$> iloc df (take k p)
  /\ y_train = prod_map id label <$> iloc df (take (n - k) (drop k p))
  /\ y_test = prod_map id label <$> iloc df (take k p).
Proof.
  unfold cell_split, getitem. destruct df as [|row df]; [discriminate|].
  cbn [mbind result_bind]. intros H.
  apply train_test_split_Return in H. rewrite !length_fmap in H.
  destruct H as (_ & Hn & -> & -> & -> & ->).
  split; [done|]. by rewrite !iloc_fmap.
Qed.

(** A completed run, read back cell by cell. *)
Lemma run_Return global_rng fs G :
  run global_rng fs = Return G ->
  cell_load global_rng fs = Return (pos G, neg G, records_df G)
  /\ cell_split (records_df G) = Return (X_train G, X_test G, y_train G, y_test G)
  /\ fit_transform TfidfVectorizer_new (X_train G).*2 = Return (x_train G, vectoriser G)
  /\ lr_fit (x_train G) (y_train G).*2 = Return (model G)
  /\ y_train_pred G = lr_predict (model G) (x_train G)
  /\ transform (vectoriser G) (X_test G).*2 = Return (x_test G, vectoriser G)
  /\ y_test_pred G = lr_predict (model G) (x_test G)
  /\ list_index (X_test G).*2 1 = Return (example_text G)
  /\ list_index (y_test G).*2 1 = Return (example_label G)
  /\ transform (vectoriser G) [example_text G] = Return (x_vect G, vectoriser G)
  /\ y_pred G = lr_predict (model G) (x_vect G)
  /\ (exists first, list_index (y_pred G) 0 = Return first).
Proof.
  unfold run. intros H.
  apply bind_Return in H as ([[pos0 neg0] df] & Hload & H).
  apply bind_Return in H as ([[[Xtr Xte] ytr] yte] & Hsplit & H).
  apply bind_Return in H as ([xtr v1] & Hfit & H).
  apply bind_Return in H as (m & Hm & H).
  apply bind_Return in H as ([xte v2] & Ht1 & H).
  apply bind_Return in H as (ex & Hex & H).
  apply bind_Return in H as (el & Hel & H).
  apply bind_Return in H as ([xv v3] & Ht2 & H).
  apply bind_Return in H as (y0 & Hy0 & H).
  injection H as <-. cbn.
  pose proof (transform_preserves _ _ _ _ Ht1) as ->.
  pose proof (transform_preserves _ _ _ _ Ht2) as ->.
  repeat (split; [done|]). by exists y0.
Qed.

Lemma filter_Forall_all {A : Type} (P : A -> Prop) `{!forall x, Decision (P x)} (l : list A) :
  Forall P l -> filter P l = l.
Proof.
  induction 1 as [|x l Hx _ IH]; [done|]. by rewrite filter_cons_True, IH.
Qed.

Lemma filter_Forall_none {A : Type} (P : A -> Prop) `{!forall x, Decision (P x)} (l : list A) :
  Forall (fun x => ~ P x) l -> filter P l = [].
Proof.
  induction 1 as [|x l Hx _ IH]; [done|]. by rewrite filter_cons_False.
Qed.

Lemma fst_prod_map_id {A B C : Type} (f : B -> C) (l : list (A * B)) :
  (prod_map id f <$> l).*1 = l.*1.
Proof. rewrite <- list_fmap_compose. apply list_fmap_ext. by intros _ [a b] _. Qed.

Lemma snd_prod_map_id {A B C : Type} (f : B -> C) (l : list (A * B)) :
  (prod_map id f <$> l).*2 = f <$> l.*2.
Proof. rewrite <- !list_fmap_compose. apply list_fmap_ext. by intros _ [a b] _. Qed.

(** The frame has the rows of [pos + neg], each once, whatever the
    generator draws. *)
Lemma cell_load_rows global_rng fs pos neg df :
  cell_load global_rng fs = Return (pos, neg, df) ->
  df.*1 = seq 0 (length pos + length neg) /\ df.*2 ≡ₚ pos ++ neg.
Proof.
  intros (Hpos & Hneg & ->)%cell_load_Return.
  set (frame := pd_DataFrame (pos ++ neg)).
  assert (Hlen : length frame = (length pos + length neg)%nat).
  { unfold frame, pd_DataFrame. rewrite length_zip, length_seq, length_app. lia. }
  assert (Hshuffle : shuffle global_rng frame ≡ₚ frame).
  { unfold shuffle. apply iloc_Permutation, rng_permutation_perm. }
  destruct (reset_index_labels (shuffle global_rng frame)) as (H1 & H2 & _).
  split.
  - by rewrite H1, Hshuffle, Hlen.
  - rewrite H2, Hshuffle. unfold frame, pd_DataFrame.
    rewrite snd_zip; [done|]. rewrite length_seq. lia.
Qed.

(** X6: shuffling and renumbering lose and duplicate nothing: the frame
    of cell 4 has the index labels 0 .. n-1 in order, its rows are the
    records of [pos + neg] rearranged, and so it has exactly as many rows
    of label 1 as the positive directory gave records and as many of
    label 0 as the negative one. *)
Theorem cell_load_keeps_every_record global_rng fs pos neg df :
  cell_load global_rng fs = Return (pos, neg, df) ->
  df.*1 = seq 0 (length pos + length neg)
  /\ df.*2 ≡ₚ pos ++ neg
  /\ length (filter (fun r => label r = 1) df.*2) = length pos
  /\ length (filter (fun r => label r = 0) df.*2) = length neg.
Proof.
  intros Hload. destruct (cell_load_rows _ _ _ _ _ Hload) as [Hidx Hrows].
  apply cell_load_Return in Hload as (Hpos & Hneg & _).
  pose proof (load_data_label _ _ _ _ Hpos) as Lpos.
  pose proof (load_data_label _ _ _ _ Hneg) as Lneg.
  split; [done|]. split; [done|]. rewrite !Hrows, !filter_app, !length_app. split.
  - rewrite (filter_Forall_all _ pos) by done.
    rewrite (filter_Forall_none _ neg); [simpl; lia|].
    eapply Forall_impl; [exact Lneg|]. simpl. intros r -> [=].
  - rewrite (filter_Forall_none _ pos).
    + by rewrite (filter_Forall_all _ neg).
    + eapply Forall_impl; [exact Lpos|]. simpl. intros r -> [=].
Qed.

(** X7: a run completes only on at least four reviews: cell 12 takes the
    second element of the test side, and the test side has
    [ceil(0.3 n)] rows. *)
Theorem run_needs_four_reviews global_rng fs G :
  run global_rng fs = Return G ->
  (4 <= length (pos G) + length (neg G))%nat
  /\ length (records_df G) = (length (pos G) + length (neg G))%nat
  /\ (2 <= length (X_test G))%nat.
Proof.
  intros (Hload & Hsplit & _ & _ & _ & _ & _ & Hex & _)%run_Return.
  destruct (cell_load_rows _ _ _ _ _ Hload) as [Hidx _].
  assert (Hn : length (records_df G) = (length (pos G) + length (neg G))%nat).
  { rewrite <- (length_fmap fst), Hidx. apply length_seq. }
  assert (Htest : (2 <= length (X_test G))%nat).
  { unfold list_index in Hex.
    destruct ((X_test G).*2 !! 1%nat) as [t|] eqn:E; [|discriminate].
    apply lookup_lt_Some in E. rewrite length_fmap in E. lia. }
  split; [|done]. rewrite <- Hn.
  apply cell_split_Return in Hsplit as (_ & _ & Hte & _).
  rewrite Hte, length_fmap in Htest.
  pose proof (iloc_length_le (records_df G)
                (take ((3 * length (records_df G) + 9) / 10)
                   (rng_permutation (RandomState_seed 42) (length (records_df G))))) as Hle.
  rewrite length_take in Hle.
  pose proof (Nat.div_mod (3 * length (records_df G) + 9) 10 ltac:(lia)).
  pose proof (Nat.mod_upper_bound (3 * length (records_df G) + 9) 10 ltac:(lia)).
  lia.
Qed.

(** X8: on fewer than two reviews the run ends in cell 6: with none the
    frame has no columns and [records_df["text"]] raises [KeyError]; with
    one the splitter raises [ValueError]. *)
Theorem run_too_few_reviews global_rng fs pos neg :
  load_data fs pos_data_dir 1 = Return pos ->
  load_data fs neg_data_dir 0 = Return neg ->
  ((length pos + length neg)%nat = 0%nat -> run global_rng fs = Raise KeyError)
  /\ ((length pos + length neg)%nat = 1%nat -> run global_rng fs = Raise ValueError).
Proof.
  intros Hpos Hneg.
  set (df := reset_index (shuffle global_rng (pd_DataFrame (pos ++ neg)))).
  assert (Hload : cell_load global_rng fs = Return (pos, neg, df))
    by by apply cell_load_Return.
  destruct (cell_load_rows _ _ _ _ _ Hload) as [Hidx _].
  assert (Hn : length df = (length pos + length neg)%nat).
  { rewrite <- (length_fmap fst), Hidx. apply length_seq. }
  unfold run. rewrite Hload. cbn [mbind result_bind]. clearbody df.
  split; intros Hlen; rewrite Hlen in Hn.
  - destruct df; [reflexivity|simpl in Hn; lia].
  - unfold cell_split, getitem.
    destruct df as [|row [|row' df']]; simpl in Hn; try lia.
    cbn [mbind result_bind].
    rewrite train_test_split_too_small by (simpl; lia). reflexivity.
Qed.

(** X9: through shuffle and split a review stays with its own label: in
    a completed run the text and label sides of the training set are the
    two columns of the same rows of the frame, and likewise for the test
    set; every row of the frame is a loaded record; and the example of
    cell 12 is the text and the label of one row, the second of the test
    set. *)
Theorem run_texts_keep_their_labels global_rng fs G :
  run global_rng fs = Return G ->
  exists rows_train rows_test,
    X_train G = prod_map id text <$> rows_train
    /\ y_train G = prod_map id label <$> rows_train
    /\ X_test G = prod_map id text <$> rows_test
    /\ y_test G = prod_map id label <$> rows_test
    /\ (forall row, row ∈ rows_train ++ rows_test ->
          row ∈ records_df G /\ row.2 ∈ pos G ++ neg G)
    /\ exists row, rows_test !! 1%nat = Some row
         /\ example_text G = text row.2 /\ example_label G = label row.2.
Proof.
  intros (Hload & Hsplit & _ & _ & _ & _ & _ & Hex & Hel & _)%run_Return.
  apply cell_split_Return in Hsplit as (_ & Htr & Hte & Hytr & Hyte).
  set (n := length (records_df G)) in *.
  set (k := ((3 * n + 9) / 10)%nat) in *.
  set (p := rng_permutation (RandomState_seed 42) n) in *.
  exists (iloc (records_df G) (take (n - k) (drop k p))), (iloc (records_df G) (take k p)).
  split; [done|]. split; [done|]. split; [done|]. split; [done|]. split.
  - intros row Hrow.
    assert (Hin : row ∈ records_df G).
    { apply elem_of_app in Hrow as [Hrow|Hrow]; by eapply iloc_elem_of. }
    split; [done|].
    apply cell_load_Return in Hload as (_ & _ & Hdf). rewrite Hdf in Hin.
    destruct row as [i r]. apply elem_of_zip_r in Hin.
    apply list_elem_of_fmap in Hin as ([j r'] & -> & Hin).
    apply iloc_elem_of in Hin. by apply elem_of_zip_r in Hin.
  - unfold list_index in Hex, Hel.
    rewrite Hte, snd_prod_map_id, !list_lookup_fmap in Hex.
    rewrite Hyte, snd_prod_map_id, !list_lookup_fmap in Hel.
    destruct (iloc (records_df G) (take k p) !! 1%nat) as [row|]; [|discriminate Hex].
    exists row. simpl in Hex, Hel. injection Hex as <-. injection Hel as <-. done.
Qed.

(** The rows a fixed vocabulary gives are counted document by document. *)
Lemma count_documents_fixed_rows raw_documents vocabulary counted :
  (count_documents true raw_documents vocabulary counted).2
  = counted ++ ((fun doc => (count_features true (analyze doc) vocabulary ∅).2)
                  <$> raw_documents).
Proof.
  revert counted. induction raw_documents as [|doc rest IH]; intros counted.
  - simpl. by rewrite app_nil_r.
  - simpl. pose proof (count_features_fixed (analyze doc) vocabulary ∅) as Hf.
    destruct (count_features true (analyze doc) vocabulary ∅) as [v' c]. simpl in Hf.
    subst v'. rewrite IH. by rewrite <- app_assoc.
Qed.

(** X10: the three matrices of a completed run have the same number of
    columns, the size of the fitted vocabulary, and one row per text:
    as many rows as training texts, as test texts, and one for the
    example. *)
Theorem run_matrix_shapes global_rng fs G :
  run global_rng fs = Return G ->
  exists vocabulary,
    vocabulary_ (vectoriser G) = Some vocabulary
    /\ n_features (x_train G) = size vocabulary
    /\ n_features (x_test G) = size vocabulary
    /\ n_features (x_vect G) = size vocabulary
    /\ length (rows (x_train G)) = length (X_train G)
    /\ length (rows (x_test G)) = length (X_test G)
    /\ length (rows (x_vect G)) = 1%nat.
Proof.
  intros (_ & _ & Hfit & _ & _ & Ht1 & _ & _ & _ & Ht2 & _)%run_Return.
  apply fit_transform_vocabulary in Hfit as (v & idf & Hv & Hi & Hw & Hr & _).
  pose proof (transform_fitted _ _ _ (X_test G).*2 Hv Hi) as E1.
  pose proof (transform_fitted _ _ _ [example_text G] Hv Hi) as E2.
  assert (Hx1 : x_test G
                = tfidf_transform idf
                    (mkCsr (size v) (count_documents true (X_test G).*2 v []).2))
    by congruence.
  assert (Hx2 : x_vect G
                = tfidf_transform idf
                    (mkCsr (size v) (count_documents true [example_text G] v []).2))
    by congruence.
  rewrite Hx1, Hx2. exists v. unfold tfidf_transform. cbn [n_features rows].
  rewrite !length_fmap, !count_documents_rows, !length_fmap.
  rewrite length_fmap in Hr. cbn [length]. repeat split; try done; lia.
Qed.

(** X11: the vector cell 13 builds for the example is the second row of
    the test matrix of cell 11: transforming the example alone and
    transforming it among the test texts give the same row. *)
Theorem run_example_row global_rng fs G :
  run global_rng fs = Return G ->
  exists row, rows (x_vect G) = [row] /\ rows (x_test G) !! 1%nat = Some row.
Proof.
  intros (_ & _ & Hfit & _ & _ & Ht1 & _ & Hex & _ & Ht2 & _)%run_Return.
  apply fit_transform_fitted in Hfit as (v & idf & Hv & Hi).
  pose proof (transform_fitted _ _ _ (X_test G).*2 Hv Hi) as E1.
  pose proof (transform_fitted _ _ _ [example_text G] Hv Hi) as E2.
  assert (Hx1 : x_test G
                = tfidf_transform idf
                    (mkCsr (size v) (count_documents true (X_test G).*2 v []).2))
    by congruence.
  assert (Hx2 : x_vect G
                = tfidf_transform idf
                    (mkCsr (size v) (count_documents true [example_text G] v []).2))
    by congruence.
  rewrite Hx1, Hx2.
  unfold tfidf_transform. cbn [rows]. rewrite !count_documents_fixed_rows, !app_nil_l.
  unfold list_index in Hex.
  destruct ((X_test G).*2 !! 1%nat) as [t|] eqn:E; [|discriminate Hex].
  injection Hex as Hex. rewrite <- Hex.
  eexists. split; [reflexivity|].
  rewrite (list_lookup_fmap (tfidf_row idf)), (list_lookup_fmap _ (X_test G).*2), E.
  reflexivity.
Qed.

(** X12: in a completed run no review is on both sides: the index labels
    of the training and the test side together are 0 .. n-1, each once;
    the test side has [ceil(0.3 n)] rows and the training side the
    rest. *)
Theorem run_sides_partition_the_frame global_rng fs G :
  run global_rng fs = Return G ->
  let n := length (records_df G) in
  (X_train G).*1 ++ (X_test G).*1 ≡ₚ seq 0 n
  /\ (forall i, i ∈ (X_train G).*1 -> i ∉ (X_test G).*1)
  /\ (y_train G).*1 = (X_train G).*1 /\ (y_test G).*1 = (X_test G).*1
  /\ length (X_test G) = ((3 * n + 9) / 10)%nat
  /\ length (X_train G) = (n - (3 * n + 9) / 10)%nat.
Proof.
  intros (Hload & Hsplit & _)%run_Return n.
  apply cell_split_Return in Hsplit as (Hn & Htr & Hte & Hytr & Hyte).
  fold n in Hn, Htr, Hte, Hytr, Hyte.
  set (k := ((3 * n + 9) / 10)%nat) in *.
  set (p := rng_permutation (RandomState_seed 42) n) in *.
  assert (Hp : p ≡ₚ seq 0 n) by apply rng_permutation_perm.
  assert (Hlp : length p = n) by (rewrite Hp; apply length_seq).
  assert (Hk : (10 * k <= 3 * n + 9)%nat).
  { unfold k. pose proof (Nat.div_mod (3 * n + 9) 10 ltac:(lia)). lia. }
  rewrite (take_ge (drop k p)) in Htr, Hytr by (rewrite length_drop; lia).
  assert (Hrows : iloc (records_df G) (drop k p) ++ iloc (records_df G) (take k p)
                  ≡ₚ records_df G).
  { rewrite Permutation_app_comm, <- iloc_app, take_drop. by apply iloc_Permutation. }
  assert (Hidx : (records_df G).*1 = seq 0 n).
  { apply cell_load_Return in Hload as (_ & _ & Hdf). unfold n. rewrite Hdf.
    destruct (reset_index_labels
                (shuffle global_rng (pd_DataFrame (pos G ++ neg G)))) as (H1 & _ & H3).
    by rewrite H1, H3. }
  assert (Hall : (X_train G).*1 ++ (X_test G).*1 ≡ₚ seq 0 n).
  { rewrite Htr, Hte, !fst_prod_map_id, <- fmap_app, Hrows. by rewrite Hidx. }
  split; [done|]. split; [|split; [|split; [|split]]].
  - pose proof (NoDup_seq 0 n) as Hnd. rewrite <- Hall in Hnd.
    apply NoDup_app in Hnd as (_ & Hdis & _). exact Hdis.
  - by rewrite Htr, Hytr, !fst_prod_map_id.
  - by rewrite Hte, Hyte, !fst_prod_map_id.
  - pose proof (Permutation_length Hrows) as Hlen. rewrite length_app in Hlen.
    pose proof (iloc_length_le (records_df G) (take k p)) as H1.
    pose proof (iloc_length_le (records_df G) (drop k p)) as H2.
    rewrite length_take in H1. rewrite length_drop in H2.
    rewrite Hte, length_fmap. fold n in Hlen. lia.
  - pose proof (Permutation_length Hrows) as Hlen. rewrite length_app in Hlen.
    pose proof (iloc_length_le (records_df G) (take k p)) as H1.
    pose proof (iloc_length_le (records_df G) (drop k p)) as H2.
    rewrite length_take in H1. rewrite length_drop in H2.
    rewrite Htr, length_fmap. fold n in Hlen. lia.
Qed.

(** X13: which row positions go to which side is fixed by the seed of
    cell 6 and the number of rows alone: two completed runs on the same
    number of reviews, whatever the files hold and whatever order the
    shuffle of cell 4 drew, have the same index labels on their training
    sides and on their test sides. *)
Theorem run_split_positions_fixed g1 g2 fs1 fs2 G1 G2 :
  run g1 fs1 = Return G1 -> run g2 fs2 = Return G2 ->
  length (records_df G1) = length (records_df G2) ->
  (X_train G1).*1 = (X_train G2).*1 /\ (X_test G1).*1 = (X_test G2).*1.
Proof.
  intros (Hload1 & Hsplit1 & _)%run_Return (Hload2 & Hsplit2 & _)%run_Return Hlen.
  apply cell_split_Return in Hsplit1 as (_ & Htr1 & Hte1 & _).
  apply cell_split_Return in Hsplit2 as (_ & Htr2 & Hte2 & _).
  assert (Hidx : (records_df G1).*1 = (records_df G2).*1).
  { apply cell_load_Return in Hload1 as (_ & _ & Hdf1).
    apply cell_load_Return in Hload2 as (_ & _ & Hdf2).
    rewrite Hdf1, Hdf2 in Hlen |- *.
    destruct (reset_index_labels
                (shuffle g1 (pd_DataFrame (pos G1 ++ neg G1)))) as (H1 & _ & L1).
    destruct (reset_index_labels
                (shuffle g2 (pd_DataFrame (pos G2 ++ neg G2)))) as (H2 & _ & L2).
    rewrite H1, H2. f_equal. lia. }
  rewrite Htr1, Htr2, Hte1, Hte2, !fst_prod_map_id, <- !iloc_fmap, Hidx, Hlen.
  done.
Qed.

(** X14: fitting needs a term: when none of the texts handed to
    [fit_transform] yields a term (empty files, or stop words only) it
    raises [ValueError]; so whenever it returns, one of the texts has a
    term. *)
Theorem fit_transform_without_terms self raw_documents :
  (Forall (fun doc => analyze doc = []) raw_documents ->
   fit_transform self raw_documents = Raise ValueError)
  /\ (forall x self', fit_transform self raw_documents = Return (x, self') ->
        exists doc term, doc ∈ raw_documents /\ term ∈ analyze doc).
Proof.
  assert (Hnone : Forall (fun doc => analyze doc = []) raw_documents ->
                  fit_transform self raw_documents = Raise ValueError).
  { intros Hall. unfold fit_transform, count_vocab.
    pose proof (count_documents_fit_terms raw_documents ∅ []) as Hterms.
    destruct (count_documents false raw_documents ∅ []) as [v counted]. simpl in Hterms.
    assert (v = ∅) as ->.
    { apply map_empty. intros term.
      destruct (v !! term) as [j|] eqn:E; [|done].
      destruct (Hterms term (mk_is_Some _ _ E)) as [H|(doc & Hdoc & Hterm)].
      - rewrite lookup_empty in H. by destruct H.
      - rewrite Forall_forall in Hall. rewrite (Hall doc Hdoc) in Hterm.
        by apply elem_of_nil in Hterm. }
    simpl. by rewrite bool_decide_eq_true_2. }
  split; [exact Hnone|].
  intros x self' Hfit.
  destruct (decide (Forall (fun doc => analyze doc = []) raw_documents)) as [Hall|Hsome].
  - rewrite (Hnone Hall) in Hfit. discriminate Hfit.
  - apply not_Forall_Exists in Hsome; [|intros doc; apply _].
    apply Exists_exists in Hsome as (doc & Hdoc & Hne).
    destruct (analyze doc) as [|term rest] eqn:E; [done|].
    exists doc, term. split; [done|]. rewrite E. by left.
Qed.

End Notebook.

(** ** The theorems at concrete inputs *)

Lemma rot_permutation_perm (g n : nat) : rot_permutation g n ≡ₚ seq 0 n.
Proof.
  unfold rot_permutation, rotate.
  rewrite Permutation_app_comm. by rewrite take_drop.
Qed.

Lemma train_test_split_partition_witness :
  let X := [(0, "a"); (1, "b"); (2, "c"); (3, "d"); (4, "e")]%nat in
  let y := [(0, 1); (1, 0); (2, 1); (3, 0); (4, 1)]%nat in
  length y = length X /\ (2 <= length X)%nat
  /\ exists X_train X_test y_train y_test,
       train_test_split rot_seed rot_permutation X y (3 # 10) 42
       = Return (X_train, X_test, y_train, y_test)
       /\ (length X_train + length X_test = length X)%nat
       /\ (length y_train + length y_test = length X)%nat
       /\ X_train ++ X_test ≡ₚ X
       /\ y_train ++ y_test ≡ₚ y
       /\ (NoDup X.*1 -> forall i, i ∈ X_train.*1 -> i ∉ X_test.*1)
       /\ (y.*1 = X.*1 -> y_train.*1 = X_train.*1 /\ y_test.*1 = X_test.*1)
       /\ (3 * length X <= 10 * length X_test < 3 * length X + 10)%nat.
Proof.
  intros X y. split; [reflexivity|]. split; [simpl; lia|].
  apply (train_test_split_partition rot_seed rot_permutation rot_permutation_perm X y 42).
  - reflexivity.
  - simpl. lia.
Defined.

Lemma load_data_labels_binary_witness :
  exists records_df,
    cell_load rot_permutation 1%nat tiny_corpus = Return (tiny_pos, tiny_neg, records_df)
    /\ load_data tiny_corpus pos_data_dir 1 = Return tiny_pos
    /\ load_data tiny_corpus neg_data_dir 0 = Return tiny_neg
    /\ Forall (fun r => label r = 1) tiny_pos
    /\ Forall (fun r => label r = 0) tiny_neg
    /\ Forall (fun r => label r = 0 \/ label r = 1) (tiny_pos ++ tiny_neg)
    /\ Forall (fun row => label row.2 = 0 \/ label row.2 = 1) records_df.
Proof.
  eexists. split; [vm_compute; reflexivity|].
  apply (load_data_labels_binary rot_permutation 1%nat tiny_corpus).
  vm_compute. reflexivity.
Defined.

Lemma load_data_one_record_per_txt_file_witness :
  let names := ["a.txt"; "notes.md"; "b.txt"] in
  listdir mixed_corpus "data/pos" = Return names
  /\ exists records,
       load_data mixed_corpus "data/pos" 1 = Return records
       /\ length records = length (filter is_txt names)
       /\ Forall2 (fun name r =>
                     read_text mixed_corpus (join "data/pos" name) = Return (text r)
                     /\ label r = 1)
            (filter is_txt names) records
       /\ (length records + length (filter (fun name => ~ is_txt name) names)
           = length names)%nat.
Proof.
  intros names. split; [reflexivity|].
  apply (load_data_one_record_per_txt_file mixed_corpus "data/pos" 1 names).
  - reflexivity.
  - intros name Hin Htxt.
    apply elem_of_cons in Hin as [->|Hin]; [by exists "fine acting"|].
    apply elem_of_cons in Hin as [->|Hin]; [discriminate Htxt|].
    apply elem_of_cons in Hin as [->|Hin]; [by exists "a joy"|].
    by apply elem_of_nil in Hin.
Defined.



Lemma load_data_listdir_order_witness :
  let names := ["a.txt"; "notes.md"; "b.txt"] in
  let others := ["README"; "notes.md"] in
  (listdir mixed_corpus "data/pos" = Return names
   /\ (forall name, name ∈ names -> is_txt name ->
         exists t, mixed_corpus !! join "data/pos" name
                   = Some (RegularFile true (Some t)))
   /\ exists records,
        load_data mixed_corpus "data/pos" 1 = Return records
        /\ length records = length (filter is_txt names)
        /\ forall i name, filter is_txt names !! i = Some name ->
             exists r, records !! i = Some r /\ label r = 1
               /\ mixed_corpus !! join "data/pos" name
                  = Some (RegularFile true (Some (text r))))
  /\ (listdir no_txt_corpus "data/pos" = Return others
      /\ filter is_txt others = []
      /\ load_data no_txt_corpus "data/pos" 1 = Return []).
Proof.
  intros names others.
  assert (Hfiles : forall name, name ∈ names -> is_txt name ->
            exists t, mixed_corpus !! join "data/pos" name
                      = Some (RegularFile true (Some t))).
  { intros name Hin Htxt.
    apply elem_of_cons in Hin as [->|Hin]; [by exists "fine acting"|].
    apply elem_of_cons in Hin as [->|Hin]; [discriminate Htxt|].
    apply elem_of_cons in Hin as [->|Hin]; [by exists "a joy"|].
    by apply elem_of_nil in Hin. }
  split.
  - split; [reflexivity|]. split; [exact Hfiles|].
    apply (proj1 (load_data_listdir_order mixed_corpus "data/pos" 1 names eq_refl)).
    exact Hfiles.
  - split; [reflexivity|]. split; [reflexivity|].
    apply (proj2 (proj2 (load_data_listdir_order no_txt_corpus "data/pos" 1 others
                           eq_refl))).
    reflexivity.
Defined.

Lemma accuracy_score_matches_over_total_witness :
  let predicted := [1; 0; 1; 1] in
  let actual := [1; 1; 1; 0] in
  length predicted = length actual /\ predicted <> []
  /\ exists accuracy,
       accuracy_score predicted actual = Return accuracy
       /\ (accuracy
           == inject_Z (Z.of_nat (count_agreeing_positions predicted actual))
              / inject_Z (Z.of_nat (length predicted)))%Q
       /\ (0 <= accuracy <= 1)%Q
       /\ accuracy_score [1; 0; 1] [1; 1; 1] = Return (2 # 3).
Proof.
  intros predicted actual. split; [reflexivity|]. split; [discriminate|].
  apply (accuracy_score_matches_over_total predicted actual);
    [reflexivity|discriminate].
Defined.

(** C5, as stated, fails here: two empty sequences have the same length,
    there is no total count to divide by, and the evaluator raises instead
    of returning an accuracy in [0,1]. *)
Lemma accuracy_score_empty_pair :
  length (@nil Z) = length (@nil Z)
  /\ accuracy_score [] [] = Raise ValueError
  /\ ~ (exists accuracy,
          accuracy_score [] [] = Return accuracy /\ (0 <= accuracy <= 1)%Q).
Proof.
  split; [reflexivity|]. split; [reflexivity|].
  intros (accuracy & H & _). discriminate H.
Qed.

Lemma transform_twice_identical_witness :
  let train := ["great film"; "dull plot"] in
  let docs := ["great plot twist"] in
  exists x0 self,
    fit_transform words_analyze q_idf q_tf_mul q_norm Qdiv TfidfVectorizer_new train
    = Return (x0, self)
    /\ exists x,
         transform words_analyze q_tf_mul q_norm Qdiv self docs = Return (x, self)
         /\ ('(x1, self1) ← transform words_analyze q_tf_mul q_norm Qdiv self docs;
             '(x2, self2) ← transform words_analyze q_tf_mul q_norm Qdiv self1 docs;
             Return (x1, x2, self2)) = Return (x, x, self).
Proof.
  intros train docs.
  assert (Hfit : exists x0 self,
             fit_transform words_analyze q_idf q_tf_mul q_norm Qdiv TfidfVectorizer_new train
             = Return (x0, self)).
  { vm_compute. eexists _, _. reflexivity. }
  destruct Hfit as (x0 & self & Hfit). exists x0, self. split; [exact Hfit|].
  apply (transform_twice_identical words_analyze q_idf q_tf_mul q_norm Qdiv
           TfidfVectorizer_new train x0 self docs Hfit).
Defined.

Lemma transform_unknown_word_witness :
  let train := ["great film"; "dull plot"] in
  let text := "great boring film" in
  let word := "boring" in
  exists x0 self vocabulary,
    fit_transform words_analyze q_idf q_tf_mul q_norm Qdiv TfidfVectorizer_new train
    = Return (x0, self)
    /\ vocabulary_ self = Some vocabulary
    /\ word ∈ words_analyze text /\ vocabulary !! word = None
    /\ exists row,
         transform words_analyze q_tf_mul q_norm Qdiv self [text]
         = Return (mkCsr (n_features x0) [row], self)
         /\ (forall j, is_Some (row !! j) ->
               exists term, term ∈ words_analyze text /\ term <> word
                            /\ vocabulary !! term = Some j)
         /\ (forall text', words_analyze text'
                           = filter (fun term => term <> word) (words_analyze text) ->
               transform words_analyze q_tf_mul q_norm Qdiv self [text']
               = transform words_analyze q_tf_mul q_norm Qdiv self [text]).
Proof.
  intros train text word.
  assert (Hfit : exists x0 self vocabulary,
             fit_transform words_analyze q_idf q_tf_mul q_norm Qdiv TfidfVectorizer_new train
             = Return (x0, self)
             /\ vocabulary_ self = Some vocabulary /\ vocabulary !! word = None).
  { vm_compute. eexists _, _, _. split; [reflexivity|]. split; reflexivity. }
  destruct Hfit as (x0 & self & vocabulary & Hfit & Hv & Hw).
  assert (Hin : word ∈ words_analyze text).
  { vm_compute. apply elem_of_cons. right. apply elem_of_cons. by left. }
  exists x0, self, vocabulary. split; [exact Hfit|]. split; [exact Hv|].
  split; [exact Hin|]. split; [exact Hw|].
  apply (transform_unknown_word words_analyze q_idf q_tf_mul q_norm Qdiv
           TfidfVectorizer_new train x0 self vocabulary text word Hfit Hv Hin Hw).
Defined.

Lemma vectoriser_fitted_on_training_texts_only_witness :
  exists G,
    run rot_seed rot_permutation words_analyze q_idf q_tf_mul q_norm Qdiv
      first_label_fit first_label_predict 1%nat tiny_corpus = Return G
    /\ fit_transform words_analyze q_idf q_tf_mul q_norm Qdiv
         TfidfVectorizer_new (X_train G).*2 = Return (x_train G, vectoriser G)
    /\ transform words_analyze q_tf_mul q_norm Qdiv (vectoriser G) (X_test G).*2
       = Return (x_test G, vectoriser G)
    /\ transform words_analyze q_tf_mul q_norm Qdiv (vectoriser G) [example_text G]
       = Return (x_vect G, vectoriser G)
    /\ (forall vocabulary term j,
          vocabulary_ (vectoriser G) = Some vocabulary -> vocabulary !! term = Some j ->
          exists doc, doc ∈ (X_train G).*2 /\ term ∈ words_analyze doc)
    /\ (forall self raw_documents x self',
          transform words_analyze q_tf_mul q_norm Qdiv self raw_documents
          = Return (x, self') -> self' = self).
Proof.
  assert (Hrun : exists G,
             run rot_seed rot_permutation words_analyze q_idf q_tf_mul q_norm Qdiv
               first_label_fit first_label_predict 1%nat tiny_corpus = Return G).
  { vm_compute. eexists. reflexivity. }
  destruct Hrun as (G & Hrun). exists G. split; [exact Hrun|].
  apply (vectoriser_fitted_on_training_texts_only rot_seed rot_permutation words_analyze
           q_idf q_tf_mul q_norm Qdiv first_label_fit first_label_predict
           1%nat tiny_corpus G Hrun).
Defined.

Lemma shuffle_breaks_reproducibility_witness :
  rot_permutation 0 4 = [0; 1; 2; 3]%nat
  /\ rot_permutation 1 4 = [1; 2; 3; 0]%nat
  /\ exists df1 df2 X_train1 X_test1 y_train1 y_test1 X_train2 X_test2 y_train2 y_test2,
       cell_load rot_permutation 0%nat tiny_corpus = Return (tiny_pos, tiny_neg, df1)
       /\ cell_load rot_permutation 1%nat tiny_corpus = Return (tiny_pos, tiny_neg, df2)
       /\ cell_split rot_seed rot_permutation df1
          = Return (X_train1, X_test1, y_train1, y_test1)
       /\ cell_split rot_seed rot_permutation df2
          = Return (X_train2, X_test2, y_train2, y_test2)
       /\ X_test1.*1 = X_test2.*1
       /\ ~ (X_test1.*2 ≡ₚ X_test2.*2)
       /\ ~ (X_train1.*2 ≡ₚ X_train2.*2).
Proof.
  split; [reflexivity|]. split; [reflexivity|].
  apply (shuffle_breaks_reproducibility rot_seed rot_permutation rot_permutation_perm
           0%nat 1%nat); reflexivity.
Defined.

(** The two runs of the witness, evaluated: with the frame left in file
    order the test side holds the two negative reviews, with the frame
    rotated by one it holds the last negative and the first positive
    one. *)
Example tiny_runs_differ :
  (cell_load rot_permutation 0%nat tiny_corpus
     ≫= fun '(_, _, df) => cell_split rot_seed rot_permutation df
     ≫= fun '(_, X_test, _, _) => Return X_test)
  = Return [(2, "dull plot"); (3, "hated every minute")]%nat
  /\ (cell_load rot_permutation 1%nat tiny_corpus
        ≫= fun '(_, _, df) => cell_split rot_seed rot_permutation df
        ≫= fun '(_, X_test, _, _) => Return X_test)
     = Return [(2, "hated every minute"); (3, "great film")]%nat.
Proof. split; vm_compute; reflexivity. Qed.

(** C2, as stated, fails here: a single row leaves nothing for the training
    side, and the splitter raises instead of returning two sides; so does
    the run on a corpus of one review. *)
Lemma train_test_split_single_record :
  train_test_split rot_seed rot_permutation [(0%nat, "a gem")] [(0%nat, 1)] (3 # 10) 42
  = Raise ValueError
  /\ ~ (exists sides,
          train_test_split rot_seed rot_permutation [(0%nat, "a gem")] [(0%nat, 1)]
            (3 # 10) 42 = Return sides)
  /\ run rot_seed rot_permutation words_analyze q_idf q_tf_mul q_norm Qdiv
       first_label_fit first_label_predict 0%nat single_corpus
     = Raise ValueError.
Proof.
  split; [|split].
  - vm_compute. reflexivity.
  - intros [sides H]. vm_compute in H. discriminate H.
  - vm_compute. reflexivity.
Qed.

(** ** The further properties at concrete inputs *)

Lemma load_data_reads_only_txt_witness :
  let fs' := delete "data/pos/notes.md" mixed_corpus in
  listdir mixed_corpus "data/pos" = listdir fs' "data/pos"
  /\ load_data mixed_corpus "data/pos" 1 = load_data fs' "data/pos" 1.
Proof.
  intros fs'. split; [reflexivity|].
  apply (load_data_reads_only_txt mixed_corpus fs' "data/pos" 1).
  - reflexivity.
  - intros names name Hls Hin Htxt. vm_compute in Hls. injection Hls as <-.
    apply elem_of_cons in Hin as [->|Hin]; [reflexivity|].
    apply elem_of_cons in Hin as [->|Hin]; [discriminate Htxt|].
    apply elem_of_cons in Hin as [->|Hin]; [reflexivity|].
    by apply elem_of_nil in Hin.
Defined.

Lemma load_data_listing_order_witness :
  let names := ["a.txt"; "notes.md"; "b.txt"] in
  let names' := ["b.txt"; "a.txt"; "notes.md"] in
  let fs' := <["data/pos" := Directory true names']> mixed_corpus in
  let out := [mkRecord "fine acting" 1; mkRecord "a joy" 1] in
  listdir mixed_corpus "data/pos" = Return names
  /\ listdir fs' "data/pos" = Return names'
  /\ names ≡ₚ names'
  /\ load_data mixed_corpus "data/pos" 1 = Return out
  /\ exists out', load_data fs' "data/pos" 1 = Return out' /\ out ≡ₚ out'.
Proof.
  intros names names' fs' out.
  assert (Hperm : names ≡ₚ names').
  { apply (bool_decide_unpack _). vm_compute. exact I. }
  split; [reflexivity|]. split; [reflexivity|]. split; [exact Hperm|].
  split; [vm_compute; reflexivity|].
  apply (load_data_listing_order mixed_corpus fs' "data/pos" 1 names names' out).
  - reflexivity.
  - reflexivity.
  - exact Hperm.
  - intros name Hin.
    apply elem_of_cons in Hin as [->|Hin]; [reflexivity|].
    apply elem_of_cons in Hin as [->|Hin]; [reflexivity|].
    apply elem_of_cons in Hin as [->|Hin]; [reflexivity|].
    by apply elem_of_nil in Hin.
  - vm_compute. reflexivity.
Defined.

Lemma cell_load_keeps_every_record_witness :
  exists df,
    cell_load rot_permutation 3%nat tiny_corpus = Return (tiny_pos, tiny_neg, df)
    /\ df.*1 = seq 0 (length tiny_pos + length tiny_neg)
    /\ df.*2 ≡ₚ tiny_pos ++ tiny_neg
    /\ length (filter (fun r => label r = 1) df.*2) = length tiny_pos
    /\ length (filter (fun r => label r = 0) df.*2) = length tiny_neg.
Proof.
  eexists. split; [vm_compute; reflexivity|].
  apply (cell_load_keeps_every_record rot_permutation rot_permutation_perm
           3%nat tiny_corpus).
  vm_compute. reflexivity.
Defined.

Lemma run_too_few_reviews_witness :
  load_data single_corpus pos_data_dir 1 = Return [mkRecord "a gem" 1]
  /\ load_data single_corpus neg_data_dir 0 = Return []
  /\ run rot_seed rot_permutation words_analyze q_idf q_tf_mul q_norm Qdiv
       first_label_fit first_label_predict 5%nat single_corpus
     = Raise ValueError.
Proof.
  assert (Hpos : load_data single_corpus pos_data_dir 1 = Return [mkRecord "a gem" 1])
    by (vm_compute; reflexivity).
  assert (Hneg : load_data single_corpus neg_data_dir 0 = Return [])
    by (vm_compute; reflexivity).
  split; [exact Hpos|]. split; [exact Hneg|].
  apply (run_too_few_reviews rot_seed rot_permutation words_analyze q_idf q_tf_mul
           q_norm Qdiv first_label_fit first_label_predict rot_permutation_perm
           5%nat single_corpus [mkRecord "a gem" 1] [] Hpos Hneg).
  reflexivity.
Defined.

(** The run on the tiny corpus completes. *)
Lemma tiny_run_completes :
  exists G,
    run rot_seed rot_permutation words_analyze q_idf q_tf_mul q_norm Qdiv
      first_label_fit first_label_predict 1%nat tiny_corpus = Return G.
Proof. vm_compute. eexists. reflexivity. Defined.

Lemma run_needs_four_reviews_witness :
  exists G,
    run rot_seed rot_permutation words_analyze q_idf q_tf_mul q_norm Qdiv
      first_label_fit first_label_predict 1%nat tiny_corpus = Return G
    /\ (4 <= length (pos G) + length (neg G))%nat
    /\ length (records_df G) = (length (pos G) + length (neg G))%nat
    /\ (2 <= length (X_test G))%nat.
Proof.
  destruct tiny_run_completes as (G & Hrun). exists G. split; [exact Hrun|].
  apply (run_needs_four_reviews rot_seed rot_permutation words_analyze q_idf q_tf_mul
           q_norm Qdiv first_label_fit first_label_predict rot_permutation_perm
           1%nat tiny_corpus G Hrun).
Defined.

Lemma run_texts_keep_their_labels_witness :
  exists G,
    run rot_seed rot_permutation words_analyze q_idf q_tf_mul q_norm Qdiv
      first_label_fit first_label_predict 1%nat tiny_corpus = Return G
    /\ exists rows_train rows_test,
         X_train G = prod_map id text <$> rows_train
         /\ y_train G = prod_map id label <$> rows_train
         /\ X_test G = prod_map id text <$> rows_test
         /\ y_test G = prod_map id label <$> rows_test
         /\ (forall row, row ∈ rows_train ++ rows_test ->
               row ∈ records_df G /\ row.2 ∈ pos G ++ neg G)
         /\ exists row, rows_test !! 1%nat = Some row
              /\ example_text G = text row.2 /\ example_label G = label row.2.
Proof.
  destruct tiny_run_completes as (G & Hrun). exists G. split; [exact Hrun|].
  apply (run_texts_keep_their_labels rot_seed rot_permutation words_analyze q_idf
           q_tf_mul q_norm Qdiv first_label_fit first_label_predict
           1%nat tiny_corpus G Hrun).
Defined.

Lemma run_matrix_shapes_witness :
  exists G,
    run rot_seed rot_permutation words_analyze q_idf q_tf_mul q_norm Qdiv
      first_label_fit first_label_predict 1%nat tiny_corpus = Return G
    /\ exists vocabulary,
         vocabulary_ (vectoriser G) = Some vocabulary
         /\ n_features (x_train G) = size vocabulary
         /\ n_features (x_test G) = size vocabulary
         /\ n_features (x_vect G) = size vocabulary
         /\ length (rows (x_train G)) = length (X_train G)
         /\ length (rows (x_test G)) = length (X_test G)
         /\ length (rows (x_vect G)) = 1%nat.
Proof.
  destruct tiny_run_completes as (G & Hrun). exists G. split; [exact Hrun|].
  apply (run_matrix_shapes rot_seed rot_permutation words_analyze q_idf
           q_tf_mul q_norm Qdiv first_label_fit first_label_predict
           1%nat tiny_corpus G Hrun).
Defined.

Lemma run_example_row_witness :
  exists G,
    run rot_seed rot_permutation words_analyze q_idf q_tf_mul q_norm Qdiv
      first_label_fit first_label_predict 1%nat tiny_corpus = Return G
    /\ exists row, rows (x_vect G) = [row] /\ rows (x_test G) !! 1%nat = Some row.
Proof.
  destruct tiny_run_completes as (G & Hrun). exists G. split; [exact Hrun|].
  apply (run_example_row rot_seed rot_permutation words_analyze q_idf
           q_tf_mul q_norm Qdiv first_label_fit first_label_predict
           1%nat tiny_corpus G Hrun).
Defined.

Lemma run_sides_partition_the_frame_witness :
  exists G,
    run rot_seed rot_permutation words_analyze q_idf q_tf_mul q_norm Qdiv
      first_label_fit first_label_predict 1%nat tiny_corpus = Return G
    /\ let n := length (records_df G) in
       (X_train G).*1 ++ (X_test G).*1 ≡ₚ seq 0 n
       /\ (forall i, i ∈ (X_train G).*1 -> i ∉ (X_test G).*1)
       /\ (y_train G).*1 = (X_train G).*1 /\ (y_test G).*1 = (X_test G).*1
       /\ length (X_test G) = ((3 * n + 9) / 10)%nat
       /\ length (X_train G) = (n - (3 * n + 9) / 10)%nat.
Proof.
  destruct tiny_run_completes as (G & Hrun). exists G. split; [exact Hrun|].
  apply (run_sides_partition_the_frame rot_seed rot_permutation words_analyze q_idf
           q_tf_mul q_norm Qdiv first_label_fit first_label_predict rot_permutation_perm
           1%nat tiny_corpus G Hrun).
Defined.

Lemma load_data_first_failure_witness :
  load_data broken_corpus "data/pos" 1 = Raise UnicodeDecodeError
  /\ (listdir broken_corpus "data/pos" = Raise UnicodeDecodeError
      \/ exists names pre name post,
           listdir broken_corpus "data/pos" = Return names
           /\ filter is_txt names = pre ++ name :: post
           /\ (forall n, n ∈ pre ->
                 exists t, read_text broken_corpus (join "data/pos" n) = Return t)
           /\ read_text broken_corpus (join "data/pos" name) = Raise UnicodeDecodeError).
Proof.
  assert (H : load_data broken_corpus "data/pos" 1 = Raise UnicodeDecodeError)
    by (vm_compute; reflexivity).
  split; [exact H|].
  apply (proj1 (load_data_first_failure broken_corpus "data/pos" 1 UnicodeDecodeError) H).
Defined.

Lemma is_txt_stem_witness :
  is_txt "cv000_29590.txt"
  /\ (exists stem, "cv000_29590.txt" = stem +:+ ".txt")
  /\ (4 <= String.length "cv000_29590.txt")%nat.
Proof.
  assert (H : is_txt "cv000_29590.txt") by reflexivity.
  destruct (is_txt_stem "cv000_29590.txt") as (Hiff & Hlen & _).
  split; [exact H|]. split; [exact (proj1 Hiff H)|exact (Hlen H)].
Defined.

(** The run on the tiny corpus also completes when the shuffle leaves the
    frame in file order. *)
Lemma tiny_run_completes_in_file_order :
  exists G,
    run rot_seed rot_permutation words_analyze q_idf q_tf_mul q_norm Qdiv
      first_label_fit first_label_predict 0%nat tiny_corpus = Return G.
Proof. vm_compute. eexists. reflexivity. Defined.

Lemma run_split_positions_fixed_witness :
  exists G1 G2,
    run rot_seed rot_permutation words_analyze q_idf q_tf_mul q_norm Qdiv
      first_label_fit first_label_predict 0%nat tiny_corpus = Return G1
    /\ run rot_seed rot_permutation words_analyze q_idf q_tf_mul q_norm Qdiv
         first_label_fit first_label_predict 1%nat tiny_corpus = Return G2
    /\ length (records_df G1) = length (records_df G2)
    /\ (X_train G1).*1 = (X_train G2).*1 /\ (X_test G1).*1 = (X_test G2).*1.
Proof.
  destruct tiny_run_completes_in_file_order as (G1 & Hrun1).
  destruct tiny_run_completes as (G2 & Hrun2).
  assert (Hlen : length (records_df G1) = length (records_df G2)).
  { vm_compute in Hrun1, Hrun2. injection Hrun1 as <-. injection Hrun2 as <-.
    reflexivity. }
  exists G1, G2. split; [exact Hrun1|]. split; [exact Hrun2|]. split; [exact Hlen|].
  apply (run_split_positions_fixed rot_seed rot_permutation words_analyze q_idf
           q_tf_mul q_norm Qdiv first_label_fit first_label_predict
           0%nat 1%nat tiny_corpus tiny_corpus G1 G2 Hrun1 Hrun2 Hlen).
Defined.

Lemma fit_transform_without_terms_witness :
  Forall (fun doc => words_analyze doc = []) [""; "   "]
  /\ fit_transform words_analyze q_idf q_tf_mul q_norm Qdiv TfidfVectorizer_new [""; "   "]
     = Raise ValueError.
Proof.
  assert (H : Forall (fun doc => words_analyze doc = []) [""; "   "]).
  { repeat constructor. }
  split; [exact H|].
  apply (proj1 (fit_transform_without_terms words_analyze q_idf q_tf_mul q_norm Qdiv
                  TfidfVectorizer_new [""; "   "]) H).
Defined.
